(** * Event-driven DWH: the raw ingestion pipeline

    A shallow embedding of [src/pipelines/ingest_raw.py]: reading a staged
    JSONL batch, the idempotent insert into [raw_events], the audit row in
    [ingestion_runs], the commit, the move to the archive directory and the
    loop of [main] over the staged batches.

    Python text is a list of Unicode code points, Python integers are [Z],
    a dict is a [gmap].  Exceptions are values of [exn]; a function that may
    raise returns [exn + A].  The durable state (the two directories and the
    stores) is the record [World], threaded explicitly; what a connection has
    written and not yet committed lives in the [Connection] only. *)

From Stdlib Require Import ZArith NArith Floats.
From stdpp Require Import base option strings list gmap sorting.

Open Scope Z_scope.
Set Warnings "-register-all".

(** ** Text *)

(** A Python [str]: its code points. *)
Abbreviation pystr := (list N).

(** The [str] written as an ASCII literal in the source. *)
Definition py (s : string) : pystr :=
  (λ c, Ascii.N_of_ascii c) <$> String.list_ascii_of_string s.

(** [str.isspace] of one character, the test [str.strip()] applies:
    U+0009..U+000D, U+001C..U+0020, U+0085, U+00A0, U+1680, U+2000..U+200A,
    U+2028, U+2029, U+202F, U+205F and U+3000. *)
Definition isspace (c : N) : bool :=
  ((9 <=? c) && (c <=? 13) || (28 <=? c) && (c <=? 32)
   || (c =? 133) || (c =? 160) || (c =? 5760)
   || (8192 <=? c) && (c <=? 8202)
   || (c =? 8232) || (c =? 8233) || (c =? 8239) || (c =? 8287)
   || (c =? 12288))%N.

Fixpoint lstrip (s : pystr) : pystr :=
  match s with
  | c :: s' => if isspace c then lstrip s' else s
  | [] => []
  end.

Definition rstrip (s : pystr) : pystr := reverse (lstrip (reverse s)).

(** [line.strip()] *)
Definition strip (s : pystr) : pystr := rstrip (lstrip s).

(** The order of [sorted] on [str], and on paths of one directory by their
    names: code point by code point. *)
Fixpoint str_le (a b : pystr) : bool :=
  match a, b with
  | [], _ => true
  | _ :: _, [] => false
  | x :: a, y :: b =>
      if (x <? y)%N then true else if (y <? x)%N then false else str_le a b
  end.

(** ** JSON values and the record dict *)

(** What [json.loads] builds: [None], [bool], [int], [float], [str], [list]
    and [dict] (its members in document order). *)
Inductive json :=
| JNull
| JBool (b : bool)
| JInt (z : Z)
| JFloat (f : float)
| JStr (s : pystr)
| JArr (items : list json)
| JObj (members : list (pystr * json)).

(** Truth value of a Python object, as [or] tests it. *)
Definition truthy (v : json) : bool :=
  match v with
  | JNull => false
  | JBool b => b
  | JInt z => negb (z =? 0)
  | JFloat f => negb (f =? 0)%float
  | JStr s => negb (bool_decide (s = []))
  | JArr l => match l with [] => false | _ => true end
  | JObj m => match m with [] => false | _ => true end
  end.

(** The [dict] made from an object's members: a later member replaces an
    earlier one of the same name.  [None] when the value is not a dict. *)
Definition as_dict (v : json) : option (gmap pystr json) :=
  match v with
  | JObj ms => Some (foldl (λ d kv, <[kv.1 := kv.2]> d) ∅ ms)
  | _ => None
  end.

(** A value of the dict once it is prepared for the statement: an object
    [json.loads] built, or the [str] that
    [json.dumps(v, ensure_ascii=False)] returns, kept as the value [v] it
    serialises. *)
Inductive pyval :=
| Val (v : json)
| Dumps (v : json).

(** [d.get(k)]: [None] when the key is absent. *)
Definition dict_get (d : gmap pystr pyval) (k : pystr) : pyval :=
  default (Val JNull) (d !! k).

(** ** The INSERT statement *)

(** The ten values bound to the placeholders of [INSERT_SQL]. *)
Record Params := {
  p_event_id : pyval;
  p_event_time : pyval;
  p_ingestion_time : pyval;
  p_event_name : pyval;
  p_user_id : pyval;
  p_session_id : pyval;
  p_product_id : pyval;
  p_price : pyval;
  p_device : pyval;
  p_payload : pyval
}.

(** The named placeholders of [INSERT_SQL], in the order of the VALUES list. *)
Definition INSERT_SQL : list pystr :=
  py <$> ["event_id"; "event_time"; "ingestion_time"; "event_name"; "user_id";
          "session_id"; "product_id"; "price"; "device"; "payload"].

(** ** Exceptions *)

Inductive exn :=
| FileNotFoundError (path : pystr)      (* [path.open] on a file that is not there *)
| JSONDecodeError (doc : pystr)         (* [json.loads] *)
| AttributeError                        (* [.get] on a value that is not a dict *)
| ProgrammingError (missing : list pystr) (* query parameters missing from the dict *)
| DataError (p : Params)                (* the server rejects the row of the INSERT *)
| NumericValueOutOfRange (z : Z)        (* a count that does not fit [::int] *)
| OperationalError (dsn : pystr)        (* [psycopg.connect] finds no store *)
| RuntimeError (msg : pystr) (cause : option exn).

(** Raising is the left injection; [x ← e; k] runs [k] when [e] returns. *)
#[global] Instance exn_ret : MRet (sum exn) := λ A a, inr a.
#[global] Instance exn_bind : MBind (sum exn) :=
  λ A B k m, match m with inl e => inl e | inr a => k a end.

(** ** What the libraries decide *)

(** The parts of the run that the sources leave to Python's [json], to
    psycopg and to the PostgreSQL server. *)
Class Libs := {
  (** [json.loads(line)]; [None] when it raises. *)
  json_loads : pystr → option json;
  (** A stored row of [raw_events]. *)
  Row : Type;
  (** Its [event_id], a 128-bit UUID: the key of the table, never null. *)
  row_event_id : Row → N;
  (** The row that the VALUES list of [INSERT_SQL] denotes for the bound
      values: psycopg's adaptation of each value, then the casts [::uuid],
      [::timestamptz], [::bigint], [::numeric], [::jsonb] and the column
      constraints of the table.  [None] when the server raises. *)
  insert_values : Params → option Row;
  (** [str(e)] for an exception raised by a library. *)
  lib_str : exn → pystr
}.

(** [str(e)] *)
Definition exn_str `{Libs} (e : exn) : pystr :=
  match e with
  | RuntimeError msg _ => msg
  | _ => lib_str e
  end.

(** ** Stores, connections and the two directories *)

(** [FileStats] *)
Record FileStats := {
  rows_in_file : Z;
  rows_loaded : Z;
  rows_deduped : Z
}.

(** A row of [ingestion_runs]: the dict [insert_ingestion_run] binds. *)
Record Run := {
  run_id : N;
  file_name : pystr;
  started_at : Z;
  finished_at : Z;
  run_stats : FileStats;
  status : pystr;
  error_message : option pystr
}.

(** What one attempt draws from its environment: [uuid.uuid4()] and the two
    readings of [utc_now()]. *)
Record Attempt := {
  att_run_id : N;
  att_started_at : Z;
  att_finished_at : Z
}.

(** Modelled from the spec: the declarations of the tables [raw_events] and
    [ingestion_runs] are not part of these sources.  The spec gives
    [raw_events] a uniqueness constraint on [event_id], its identity key, so
    the table is a finite map from [event_id] to the row, whatever a row
    is; [ingestion_runs] supports pure append, so it is the list of its
    rows, oldest first. *)
Record Database {Row : Type} := {
  raw_events : gmap N Row;
  ingestion_runs : list Run
}.

Arguments Database : clear implicits.

(** The durable state: the regular files of [INCOMING_DIR] and of
    [ARCHIVE_DIR], by name, each file being the lines that iterating over it
    yields, and the committed content of the store behind each DSN.  A path
    handed to [ingest_one_file] is a file of [INCOMING_DIR], as in [main],
    and stands for its name. *)
Record World {Row : Type} := {
  incoming : gmap pystr (list pystr);
  archive : gmap pystr (list pystr);
  stores : gmap pystr (Database Row)
}.

Arguments World : clear implicits.

(** An open connection: where it leads and what its transaction sees, the
    committed content plus its own writes. *)
Record Connection {Row : Type} := {
  conn_dsn : pystr;
  conn_db : Database Row
}.

Arguments Connection : clear implicits.

Section Pipeline.
Context `{Libs}.

(** [psycopg.connect(dsn)] *)
Definition connect (dsn : pystr) (w : World Row) : exn + Connection Row :=
  match stores w !! dsn with
  | Some db => inr {| conn_dsn := dsn; conn_db := db |}
  | None => inl (OperationalError dsn)
  end.

(** [conn.commit()] *)
Definition commit (conn : Connection Row) (w : World Row) : World Row :=
  {| incoming := incoming w;
     archive := archive w;
     stores := <[conn_dsn conn := conn_db conn]> (stores w) |}.

(** ** [load_jsonl_file] *)

(** psycopg looks every placeholder up in the dict and raises when some are
    missing, naming them in sorted order. *)
Definition bind_params (obj : gmap pystr pyval) : exn + Params :=
  match filter (λ k, obj !! k = None) INSERT_SQL with
  | [] =>
      inr {| p_event_id := dict_get obj (py "event_id");
             p_event_time := dict_get obj (py "event_time");
             p_ingestion_time := dict_get obj (py "ingestion_time");
             p_event_name := dict_get obj (py "event_name");
             p_user_id := dict_get obj (py "user_id");
             p_session_id := dict_get obj (py "session_id");
             p_product_id := dict_get obj (py "product_id");
             p_price := dict_get obj (py "price");
             p_device := dict_get obj (py "device");
             p_payload := dict_get obj (py "payload") |}
  | missing =>
      inl (ProgrammingError (merge_sort (λ a b : pystr, str_le a b) missing))
  end.

(** [cur.execute(INSERT_SQL, obj)] followed by [cur.rowcount]: the row is
    added unless one with its [event_id] is there ([ON CONFLICT (event_id) DO
    NOTHING]), and the row count tells which. *)
Definition execute_insert (obj : gmap pystr pyval) (tbl : gmap N Row)
  : exn + (Z * gmap N Row) :=
  match bind_params obj with
  | inl e => inl e
  | inr p =>
      match insert_values p with
      | None => inl (DataError p)
      | Some r =>
          match tbl !! row_event_id r with
          | Some _ => inr (0, tbl)
          | None => inr (1, <[row_event_id r := r]> tbl)
          end
      end
  end.

(** Lines 73 to 80: the payload as a JSON string, the optional fields
    present. *)
Definition normalize (d : gmap pystr json) : gmap pystr pyval :=
  let got := default JNull (d !! py "payload") in
  let payload := if truthy got then got else JObj [] in
  let obj : gmap pystr pyval := Val <$> d in
  let obj := <[py "payload" := Dumps payload]> obj in
  let obj := <[py "product_id" := dict_get obj (py "product_id")]> obj in
  let obj := <[py "price" := dict_get obj (py "price")]> obj in
  let obj := <[py "device" := dict_get obj (py "device")]> obj in
  obj.

(** Lines 71 to 80: the dict that is bound to the statement.  [.get] raises
    on a JSON value that is not an object. *)
Definition prepare (line : pystr) : exn + gmap pystr pyval :=
  match json_loads line with
  | None => inl (JSONDecodeError line)
  | Some v =>
      match as_dict v with
      | None => inl AttributeError
      | Some d => inr (normalize d)
      end
  end.

(** The loop over the lines of the file, with the two counters and the table
    as the cursor's transaction sees it. *)
Fixpoint load_lines (lines : list pystr) (rows_in_file rows_loaded : Z)
    (tbl : gmap N Row) : exn + (Z * Z * gmap N Row) :=
  match lines with
  | [] => inr (rows_in_file, rows_loaded, tbl)
  | line :: rest =>
      let line := strip line in
      if bool_decide (line = []) then
        load_lines rest rows_in_file rows_loaded tbl
      else
        let rows_in_file := rows_in_file + 1 in
        match prepare line with
        | inl e => inl e
        | inr obj =>
            match execute_insert obj tbl with
            | inl e => inl e
            | inr (rowcount, tbl) =>
                load_lines rest rows_in_file (rows_loaded + rowcount) tbl
            end
        end
  end.

Definition load_jsonl_file (conn : Connection Row) (path : pystr) (w : World Row)
  : exn + (FileStats * Connection Row) :=
  match incoming w !! path with
  | None => inl (FileNotFoundError path)
  | Some lines =>
      match load_lines lines 0 0 (raw_events (conn_db conn)) with
      | inl e => inl e
      | inr (rows_in_file, rows_loaded, tbl) =>
          inr ({| rows_in_file := rows_in_file;
                  rows_loaded := rows_loaded;
                  rows_deduped := rows_in_file - rows_loaded |},
               {| conn_dsn := conn_dsn conn;
                  conn_db := {| raw_events := tbl;
                                ingestion_runs := ingestion_runs (conn_db conn) |} |})
      end
  end.

(** ** [archive_file] *)

(** [shutil.move(str(path), str(dest))] with [dest = ARCHIVE_DIR / path.name]:
    the rename puts the file under its name in the archive directory, in the
    place of whatever regular file had that name there.  The result is the
    file's name in [ARCHIVE_DIR].

    The two directories hold regular files only and the operating system
    lets the move happen.  What lies outside this world is not described: an
    [ARCHIVE_DIR] that cannot be made ([mkdir] raises), a directory under
    the destination's name (the file is moved into it, or [shutil.Error] is
    raised), an [OSError] during the move.  So the only failure of
    [archive_file] here is a file that is not staged. *)
Definition archive_file (path : pystr) (w : World Row) : exn + (pystr * World Row) :=
  match incoming w !! path with
  | None => inl (FileNotFoundError path)
  | Some content =>
      inr (path, {| incoming := delete path (incoming w);
                    archive := <[path := content]> (archive w);
                    stores := stores w |})
  end.

(** ** [insert_ingestion_run] *)

(** The range of the SQL type [int], the target of the casts of the three
    counts. *)
Definition int4 (z : Z) : bool := (- 2 ^ 31 <=? z) && (z <? 2 ^ 31).

Definition insert_ingestion_run (conn : Connection Row) (run_id : N)
    (file_name : pystr) (started_at finished_at : Z) (stats : FileStats)
    (status : pystr) (error_message : option pystr) : exn + Connection Row :=
  if negb (int4 (rows_in_file stats)) then
    inl (NumericValueOutOfRange (rows_in_file stats))
  else if negb (int4 (rows_loaded stats)) then
    inl (NumericValueOutOfRange (rows_loaded stats))
  else if negb (int4 (rows_deduped stats)) then
    inl (NumericValueOutOfRange (rows_deduped stats))
  else
    let data := {| run_id := run_id;
                   file_name := file_name;
                   started_at := started_at;
                   finished_at := finished_at;
                   run_stats := stats;
                   status := status;
                   error_message := error_message |} in
    inr {| conn_dsn := conn_dsn conn;
           conn_db := {| raw_events := raw_events (conn_db conn);
                         ingestion_runs := ingestion_runs (conn_db conn) ++ [data] |} |}.

(** ** [ingest_one_file] *)

(** How a call ends: it printed the summary line of the file, or it raised. *)
Inductive result :=
| Done (stats : FileStats) (archived : pystr)
| Raised (e : exn).

(** Lines 137 to 143, the [with psycopg.connect(dsn) as conn] block: an
    exception inside it rolls the transaction back, so the world is the one
    the block started in; otherwise the writes of the connection are
    committed. *)
Definition with_connect (att : Attempt) (dsn path : pystr) (w : World Row)
  : exn + (FileStats * World Row) :=
  conn ← connect dsn w;
  '(stats, conn) ← load_jsonl_file conn path w;
  conn ← insert_ingestion_run conn (att_run_id att) path (att_started_at att)
           (att_finished_at att) stats (py "success") None;
  mret (stats, commit conn w).

(** The message of the [RuntimeError] of line 152. *)
Definition failed_to_ingest (path : pystr) (e : exn) : pystr :=
  py "Failed to ingest " ++ path ++ py ": " ++ exn_str e.

(** [ingest_one_file].  The [print] of lines 146 to 149 is taken to succeed
    and is left out; with [archive_file] as above, an attempt that raises
    after its commit (a move that fails, a standard output that cannot
    encode the summary line) is outside this model: a [Raised] attempt is
    one that raised before the commit, or on a file that is not staged. *)
Definition ingest_one_file (att : Attempt) (dsn path : pystr) (w : World Row)
  : World Row * result :=
  match with_connect att dsn path w with
  | inl e => (w, Raised (RuntimeError (failed_to_ingest path e) (Some e)))
  | inr (stats, w) =>
      match archive_file path w with
      | inl e => (w, Raised (RuntimeError (failed_to_ingest path e) (Some e)))
      | inr (archived, w) => (w, Done stats archived)
      end
  end.

(** ** [main] *)

(** [get_dsn], given the value of [PG_DSN] in the environment once [.env] is
    loaded. *)
Definition get_dsn (pg_dsn : option pystr) : exn + pystr :=
  match pg_dsn with
  | Some (c :: dsn) => inr (c :: dsn)
  | _ => inl (RuntimeError
                (py "PG_DSN is not set. Put it into .env (see README).") None)
  end.

(** [sorted(INCOMING_DIR.glob("*.jsonl"))] *)
Definition staged_files (w : World Row) : list pystr :=
  merge_sort (λ a b : pystr, str_le a b)
    (filter (λ name, py ".jsonl" `suffix_of` name) (map_to_list (incoming w)).*1).

(** The [for path in files] loop, as the calls of [ingest_one_file] it made
    and how each ended; [k] counts the attempts made so far.  An exception
    leaves the loop, the files after it not visited. *)
Fixpoint ingest_files (att : nat → Attempt) (k : nat) (dsn : pystr)
    (files : list pystr) (w : World Row) : World Row * list (pystr * result) :=
  match files with
  | [] => (w, [])
  | path :: rest =>
      match ingest_one_file (att k) dsn path w with
      | (w, Raised e) => (w, [(path, Raised e)])
      | (w, Done stats archived) =>
          let '(w, calls) := ingest_files att (S k) dsn rest w in
          (w, (path, Done stats archived) :: calls)
      end
  end.

(** The exception a run of the loop ended with. *)
Definition raised (calls : list (pystr * result)) : option exn :=
  match last calls with
  | Some (_, Raised e) => Some e
  | _ => None
  end.

(** [main]: the world it leaves, the calls of [ingest_one_file] it made and
    the exception it ended with, if any. *)
Definition main (pg_dsn : option pystr) (att : nat → Attempt) (w : World Row)
  : World Row * list (pystr * result) * option exn :=
  match get_dsn pg_dsn with
  | inl e => (w, [], Some e)
  | inr dsn =>
      match staged_files w with
      | [] => (w, [], None)
      | files =>
          let '(w, calls) := ingest_files att 0 dsn files w in
          (w, calls, raised calls)
      end
  end.

(** ** Vocabulary of the properties *)

(** A line the loop skips. *)
Definition blank (line : pystr) : Prop := strip line = [].

(** The row a line of the file stands for: parsed, normalised, bound and
    evaluated by the server, or the exception one of these steps raises. *)
Definition row_of (line : pystr) : exn + Row :=
  obj ← prepare (strip line);
  p ← bind_params obj;
  match insert_values p with
  | None => inl (DataError p)
  | Some r => inr r
  end.

(** A record that cannot be loaded: it does not parse, is no object, lacks a
    placeholder of the statement, or the server refuses its values. *)
Definition invalid (line : pystr) : Prop :=
  ¬ blank line ∧ ∃ e, row_of line = inl e.

(** The audit row of a successful attempt. *)
Definition success_run (att : Attempt) (path : pystr) (stats : FileStats) : Run :=
  {| run_id := att_run_id att;
     file_name := path;
     started_at := att_started_at att;
     finished_at := att_finished_at att;
     run_stats := stats;
     status := py "success";
     error_message := None |}.

(** The events and the runs committed in the store behind [dsn]. *)
Definition events_of (dsn : pystr) (w : World Row) : gmap N Row :=
  from_option raw_events ∅ (stores w !! dsn).

Definition runs_of (dsn : pystr) (w : World Row) : list Run :=
  from_option ingestion_runs [] (stores w !! dsn).

(** The world a committed attempt leaves: the directories as they were, the
    store with the table the loop built and one more audit row. *)
Definition committed (att : Attempt) (dsn path : pystr) (w : World Row)
    (db : Database Row) (stats : FileStats) (tbl : gmap N Row) : World Row :=
  {| incoming := incoming w;
     archive := archive w;
     stores := <[dsn := {| raw_events := tbl;
                           ingestion_runs := ingestion_runs db
                                             ++ [success_run att path stats] |}]>
                 (stores w) |}.

(** The world after the move of [path], holding [lines], to the archive. *)
Definition moved (path : pystr) (lines : list pystr) (w : World Row) : World Row :=
  {| incoming := delete path (incoming w);
     archive := <[path := lines]> (archive w);
     stores := stores w |}.

(** An attempt on [path] that took [w] to [w'] was audited as failed: one
    more row in [ingestion_runs], with the status [failed] and an error
    message that is not empty. *)
Definition failed_run_recorded (dsn path : pystr) (w w' : World Row) : Prop :=
  ∃ run msg,
    runs_of dsn w' = runs_of dsn w ++ [run]
    ∧ file_name run = path
    ∧ status run = py "failed"
    ∧ error_message run = Some msg
    ∧ msg ≠ [].

(** The placeholders of the statement that [normalize] does not fill in. *)
Definition required : list pystr :=
  py <$> ["event_id"; "event_time"; "ingestion_time"; "event_name"; "user_id";
          "session_id"].

End Pipeline.

(** ** A reference instance of the libraries

    A reader for JSON text after CPython's [json] scanner (its limits on the
    depth of nesting and on the digits of an [int] left out), and a store
    that applies the casts of [INSERT_SQL] to values of the Python types the
    generator writes.  The examples below run the pipeline on them.

    Neither is the library it stands for.  The declaration of [raw_events]
    is not part of the sources, so which columns take a null is a choice of
    this store, and its casts accept less than PostgreSQL's do.  Every
    theorem is proved for all instances of [Libs]; this one shows that
    their hypotheses can be met. *)

Module Ref.

(** The code point of a one-character literal. *)
Definition ch (s : string) : N :=
  match s with String a _ => Ascii.N_of_ascii a | EmptyString => 0%N end.

(** The whitespace of the JSON grammar. *)
Definition is_ws (c : N) : bool :=
  ((c =? 32) || (c =? 9) || (c =? 10) || (c =? 13))%N.

Fixpoint skip_ws (s : pystr) : pystr :=
  match s with
  | c :: s' => if is_ws c then skip_ws s' else s
  | [] => []
  end.

Definition is_digit (c : N) : bool := ((48 <=? c) && (c <=? 57))%N.

Definition hex_val (c : N) : option N :=
  if is_digit c then Some (c - 48)%N
  else if ((97 <=? c) && (c <=? 102))%N then Some (c - 87)%N
  else if ((65 <=? c) && (c <=? 70))%N then Some (c - 55)%N
  else None.

(** The longest run of decimal digits at the head of [s]. *)
Fixpoint span_digits (s : pystr) : pystr * pystr :=
  match s with
  | c :: s' =>
      if is_digit c then let '(ds, r) := span_digits s' in (c :: ds, r)
      else ([], s)
  | [] => ([], [])
  end.

Definition digits_val (ds : pystr) : Z :=
  foldl (λ acc c, 10 * acc + Z.of_N (c - 48)%N) 0 ds.

(** [float] of the decimal [(-1)^neg * m * 10^e], rounded to nearest even. *)
Definition float_of_decimal (neg : bool) (m e : Z) : float :=
  match m with
  | Zpos p =>
      if 0 <=? e then
        SF2Prim (binary_normalize prec emax
                   ((if neg then Zneg p else Zpos p) * 10 ^ e) 0 false)
      else
        SF2Prim (SFdiv prec emax (S754_finite neg p 0)
                   (S754_finite false (Z.to_pos (10 ^ (- e))) 0))
  | _ => if neg then (-0)%float else 0%float
  end.

(** Four hexadecimal digits. *)
Definition hex4 (s : pystr) : option (N * pystr) :=
  match s with
  | a :: b :: c :: d :: r =>
      a ← hex_val a; b ← hex_val b; c ← hex_val c; d ← hex_val d;
      Some (((a * 16 + b) * 16 + c) * 16 + d, r)%N
  | _ => None
  end.

(** The body of a string literal, after the opening quote, up to and with
    the closing one.  Control characters are refused; a high surrogate
    escape followed by a low one is one character. *)
Fixpoint scan_string (n : nat) (s : pystr) (acc : pystr) : option (pystr * pystr) :=
  match n with
  | O => None
  | S n =>
      match s with
      | [] => None
      | c :: r =>
          if (c =? 34)%N then Some (reverse acc, r)
          else if (c <? 32)%N then None
          else if (c =? 92)%N then
            match r with
            | [] => None
            | e :: r =>
                if (e =? 34)%N then scan_string n r (34 :: acc)%N
                else if (e =? 92)%N then scan_string n r (92 :: acc)%N
                else if (e =? 47)%N then scan_string n r (47 :: acc)%N
                else if (e =? ch "b")%N then scan_string n r (8 :: acc)%N
                else if (e =? ch "f")%N then scan_string n r (12 :: acc)%N
                else if (e =? ch "n")%N then scan_string n r (10 :: acc)%N
                else if (e =? ch "r")%N then scan_string n r (13 :: acc)%N
                else if (e =? ch "t")%N then scan_string n r (9 :: acc)%N
                else if (e =? ch "u")%N then
                  match hex4 r with
                  | None => None
                  | Some (u, r) =>
                      if ((55296 <=? u) && (u <=? 56319))%N then
                        match r with
                        | b1 :: b2 :: r2 =>
                            if ((b1 =? 92) && (b2 =? ch "u"))%N then
                              match hex4 r2 with
                              | Some (u2, r3) =>
                                  if ((56320 <=? u2) && (u2 <=? 57343))%N then
                                    scan_string n r3
                                      ((65536 + (u - 55296) * 1024 + (u2 - 56320)) :: acc)%N
                                  else scan_string n r (u :: acc)
                              | None => scan_string n r (u :: acc)
                              end
                            else scan_string n r (u :: acc)
                        | _ => scan_string n r (u :: acc)
                        end
                      else scan_string n r (u :: acc)
                  end
                else None
            end
          else scan_string n r (c :: acc)
      end
  end.

(** A number at the head of [s]: an [int] when it has neither fraction nor
    exponent, a [float] otherwise. *)
Definition scan_number (s : pystr) : option (json * pystr) :=
  let '(neg, s1) :=
    match s with
    | c :: r => if (c =? 45)%N then (true, r) else (false, s)
    | [] => (false, s)
    end in
  match span_digits s1 with
  | ([], _) => None
  | (d :: ds, r) =>
      (* a leading 0 stands alone *)
      let '(ip, r) := if (d =? 48)%N then ([d], ds ++ r) else (d :: ds, r) in
      let '(fp, r1) :=
        match r with
        | c :: r' =>
            if (c =? 46)%N then
              match span_digits r' with
              | ([], _) => ([], r)
              | (fs, r'') => (fs, r'')
              end
            else ([], r)
        | [] => ([], r)
        end in
      let exp_of (eneg : bool) (r' : pystr) :=
        match span_digits r' with
        | ([], _) => None
        | (es, r'') => Some ((if eneg then - digits_val es else digits_val es), r'')
        end in
      let ex :=
        match r1 with
        | c :: r' =>
            if ((c =? ch "e") || (c =? ch "E"))%N then
              match r' with
              | sg :: r'' =>
                  if (sg =? 45)%N then exp_of true r''
                  else if (sg =? 43)%N then exp_of false r''
                  else exp_of false r'
              | [] => None
              end
            else None
        | [] => None
        end in
      match fp, ex with
      | [], None =>
          Some (JInt (if neg then - digits_val ip else digits_val ip), r1)
      | _, None =>
          Some (JFloat (float_of_decimal neg (digits_val (ip ++ fp))
                          (- Z.of_nat (length fp))), r1)
      | _, Some (e, r2) =>
          Some (JFloat (float_of_decimal neg (digits_val (ip ++ fp))
                          (e - Z.of_nat (length fp))), r2)
      end
  end.

(** [s] with the literal [lit] taken off its head. *)
Definition eat (lit : string) (s : pystr) : option pystr :=
  let l := py lit in
  if bool_decide (take (length l) s = l) then Some (drop (length l) s) else None.

(** One value at the head of [s], no whitespace before it; the elements of
    an array after its bracket; the members of an object after its brace.
    Each call spends one unit of [n]. *)
Fixpoint scan_once (n : nat) (s : pystr) : option (json * pystr) :=
  match n with
  | O => None
  | S n =>
      match s with
      | [] => None
      | c :: r =>
          if (c =? 34)%N then
            '(str, r) ← scan_string (length s) r []; Some (JStr str, r)
          else if (c =? ch "{")%N then
            match skip_ws r with
            | c' :: r' =>
                if (c' =? ch "}")%N then Some (JObj [], r')
                else '(ms, r) ← scan_members n (c' :: r'); Some (JObj ms, r)
            | [] => None
            end
          else if (c =? ch "[")%N then
            match skip_ws r with
            | c' :: r' =>
                if (c' =? ch "]")%N then Some (JArr [], r')
                else '(vs, r) ← scan_items n (c' :: r'); Some (JArr vs, r)
            | [] => None
            end
          else
            match eat "null" s, eat "true" s, eat "false" s with
            | Some r, _, _ => Some (JNull, r)
            | _, Some r, _ => Some (JBool true, r)
            | _, _, Some r => Some (JBool false, r)
            | _, _, _ =>
                match scan_number s with
                | Some res => Some res
                | None =>
                    match eat "NaN" s, eat "Infinity" s, eat "-Infinity" s with
                    | Some r, _, _ => Some (JFloat nan, r)
                    | _, Some r, _ => Some (JFloat infinity, r)
                    | _, _, Some r => Some (JFloat neg_infinity, r)
                    | _, _, _ => None
                    end
                end
            end
      end
  end
with scan_items (n : nat) (s : pystr) : option (list json * pystr) :=
  match n with
  | O => None
  | S n =>
      '(v, r) ← scan_once n s;
      match skip_ws r with
      | c :: r =>
          if (c =? ch "]")%N then Some ([v], r)
          else if (c =? ch ",")%N then
            '(vs, r) ← scan_items n (skip_ws r); Some (v :: vs, r)
          else None
      | [] => None
      end
  end
with scan_members (n : nat) (s : pystr) : option (list (pystr * json) * pystr) :=
  match n with
  | O => None
  | S n =>
      match s with
      | c :: r =>
          if (c =? 34)%N then
            '(key, r) ← scan_string (length s) r [];
            match skip_ws r with
            | c :: r =>
                if (c =? ch ":")%N then
                  '(v, r) ← scan_once n (skip_ws r);
                  match skip_ws r with
                  | c :: r =>
                      if (c =? ch "}")%N then Some ([(key, v)], r)
                      else if (c =? ch ",")%N then
                        '(ms, r) ← scan_members n (skip_ws r);
                        Some ((key, v) :: ms, r)
                      else None
                  | [] => None
                  end
                else None
            | [] => None
            end
          else None
      | [] => None
      end
  end.

(** [json.loads]: one value between optional whitespace, nothing after it,
    no byte order mark before it. *)
Definition loads (s : pystr) : option json :=
  '(v, r) ← scan_once (2 * length s + 2) (skip_ws s);
  match skip_ws r with [] => Some v | _ => None end.

(** *** The store *)

(** PostgreSQL's input syntax of [uuid]: sixteen bytes of two hexadecimal
    digits each, a hyphen allowed after every second byte but the last, the
    whole optionally in braces. *)
Fixpoint uuid_bytes (todo : nat) (i : N) (s : pystr) (acc : N) : option (N * pystr) :=
  match todo with
  | O => Some (acc, s)
  | S todo =>
      match s with
      | a :: b :: r =>
          a ← hex_val a; b ← hex_val b;
          let r :=
            match r with
            | c :: r' => if ((c =? 45) && N.odd i && (i <? 15))%N then r' else r
            | [] => r
            end in
          uuid_bytes todo (i + 1)%N r (acc * 256 + a * 16 + b)%N
      | _ => None
      end
  end.

Definition uuid_in (s : pystr) : option N :=
  match s with
  | c :: r =>
      if (c =? ch "{")%N then
        '(u, r) ← uuid_bytes 16 0%N r 0%N;
        if bool_decide (r = py "}") then Some u else None
      else
        '(u, r) ← uuid_bytes 16 0%N s 0%N;
        if bool_decide (r = []) then Some u else None
  | [] => None
  end.

(** Two decimal digits no greater than [hi], then the rest. *)
Definition two_digits (lo hi : N) (s : pystr) : option pystr :=
  match s with
  | a :: b :: r =>
      if is_digit a && is_digit b then
        let v := ((a - 48) * 10 + (b - 48))%N in
        if ((lo <=? v) && (v <=? hi))%N then Some r else None
      else None
  | _ => None
  end.

(** One expected character, then the rest. *)
Definition one_of (cs : list N) (s : pystr) : option pystr :=
  match s with
  | c :: r => if bool_decide (c ∈ cs) then Some r else None
  | [] => None
  end.

(** A timestamp in the form [datetime.isoformat] writes:
    [YYYY-MM-DDTHH:MM:SS], an optional fraction, and the offset [+HH:MM] or
    [-HH:MM]. *)
Definition iso_timestamp (s : pystr) : bool :=
  bool_decide (is_Some (
    s ← two_digits 0 99 s; s ← two_digits 0 99 s; s ← one_of [45%N] s;
    s ← two_digits 1 12 s; s ← one_of [45%N] s;
    s ← two_digits 1 31 s; s ← one_of [ch "T"; 32%N] s;
    s ← two_digits 0 23 s; s ← one_of [ch ":"] s;
    s ← two_digits 0 59 s; s ← one_of [ch ":"] s;
    s ← two_digits 0 59 s;
    s ← match s with
        | c :: r =>
            if (c =? 46)%N then
              match span_digits r with ([], _) => None | (_, r) => Some r end
            else Some s
        | [] => Some s
        end;
    s ← one_of [43%N; 45%N] s;
    s ← two_digits 0 15 s; s ← one_of [ch ":"] s;
    s ← two_digits 0 59 s;
    if bool_decide (s = []) then Some () else None)).

Definition int8 (z : Z) : bool := (- 2 ^ 63 <=? z) && (z <? 2 ^ 63).

(** No NaN and no infinity inside: what [jsonb] can hold. *)
Fixpoint json_finite (v : json) : bool :=
  match v with
  | JFloat f => is_finite f
  | JArr l => forallb json_finite l
  | JObj m => forallb (λ kv, json_finite (snd kv)) m
  | _ => true
  end.

(** A stored event. *)
Record row := {
  r_event_id : N;
  r_event_time : pystr;
  r_ingestion_time : pystr;
  r_event_name : pystr;
  r_user_id : Z;
  r_session_id : N;
  r_product_id : option Z;
  r_price : option json;
  r_device : option pystr;
  r_payload : json
}.

(** The casts of the VALUES list on values of the Python types the generator
    writes.  In this store the three columns that the loader fills with
    [None] when the record has no such field ([product_id], [price],
    [device]) take a null; the others do not. *)
Definition values_row (p : Params) : option row :=
  event_id ← match p_event_id p with Val (JStr s) => uuid_in s | _ => None end;
  event_time ← match p_event_time p with
               | Val (JStr s) => if iso_timestamp s then Some s else None
               | _ => None
               end;
  ingestion_time ← match p_ingestion_time p with
                   | Val (JStr s) => if iso_timestamp s then Some s else None
                   | _ => None
                   end;
  event_name ← match p_event_name p with Val (JStr s) => Some s | _ => None end;
  user_id ← match p_user_id p with
            | Val (JInt z) => if int8 z then Some z else None
            | _ => None
            end;
  session_id ← match p_session_id p with Val (JStr s) => uuid_in s | _ => None end;
  product_id ← match p_product_id p with
               | Val JNull => Some None
               | Val (JInt z) => if int8 z then Some (Some z) else None
               | _ => None
               end;
  price ← match p_price p with
          | Val JNull => Some None
          | Val (JInt z) => Some (Some (JInt z))
          | Val (JFloat f) => Some (Some (JFloat f))
          | _ => None
          end;
  device ← match p_device p with
           | Val JNull => Some None
           | Val (JStr s) => Some (Some s)
           | _ => None
           end;
  payload ← match p_payload p with
            | Dumps v => if json_finite v then Some v else None
            | _ => None
            end;
  Some {| r_event_id := event_id; r_event_time := event_time;
          r_ingestion_time := ingestion_time; r_event_name := event_name;
          r_user_id := user_id; r_session_id := session_id;
          r_product_id := product_id; r_price := price; r_device := device;
          r_payload := payload |}.

(** The text of the library's exceptions, in short. *)
Definition message (e : exn) : pystr :=
  match e with
  | FileNotFoundError path => py "No such file or directory: " ++ path
  | JSONDecodeError _ => py "Expecting value"
  | AttributeError => py "object has no attribute 'get'"
  | ProgrammingError missing => py "query parameter missing: " ++ concat missing
  | DataError _ => py "invalid input value"
  | NumericValueOutOfRange _ => py "integer out of range"
  | OperationalError _ => py "connection failed"
  | RuntimeError msg _ => msg
  end.

#[export] Instance libs : Libs := {|
  json_loads := loads;
  Row := row;
  row_event_id := r_event_id;
  insert_values := values_row;
  lib_str := message
|}.

(** JSON text written with an apostrophe for each double quote. *)
Definition js (s : string) : pystr :=
  (λ c, if (c =? 39)%N then 34%N else c) <$> py s.

End Ref.

#[global] Existing Instance Ref.libs.

(** ** Sample batches *)

Module Sample.
Import Ref.

(** Records as the generator writes them.  [event_a] and [event_a_late] carry
    the same [event_id] and differ in time and payload. *)
Definition event_a : pystr :=
  js ("{'event_id': '6f1c2a90-3b7e-4c55-9d21-0a4be2f7c001', "
      ++ "'event_time': '2026-02-18T12:34:56.123456+00:00', "
      ++ "'ingestion_time': '2026-02-18T12:35:10.000001+00:00', "
      ++ "'event_name': 'open', 'user_id': 17, "
      ++ "'session_id': '0d9e8c7b-6a5f-4e3d-8c2b-1a0f9e8d7c6b', "
      ++ "'product_id': null, 'price': null, 'device': 'web', "
      ++ "'payload': {'source': 'synthetic_generator', 'is_late': false, "
      ++ "'session_step': 1}}") ++ [10%N].

Definition event_b : pystr :=
  js ("{'event_id': '6f1c2a90-3b7e-4c55-9d21-0a4be2f7c002', "
      ++ "'event_time': '2026-02-18T12:35:20.000000+00:00', "
      ++ "'ingestion_time': '2026-02-18T12:35:10.000001+00:00', "
      ++ "'event_name': 'purchase', 'user_id': 17, "
      ++ "'session_id': '0d9e8c7b-6a5f-4e3d-8c2b-1a0f9e8d7c6b', "
      ++ "'product_id': 4711, 'price': 19.99, 'device': 'web', "
      ++ "'payload': {'source': 'synthetic_generator', 'is_late': false, "
      ++ "'session_step': 2}}") ++ [10%N].

Definition event_a_late : pystr :=
  js ("{'event_id': '6f1c2a90-3b7e-4c55-9d21-0a4be2f7c001', "
      ++ "'event_time': '2026-02-18T09:01:02.000000+00:00', "
      ++ "'ingestion_time': '2026-02-18T12:35:10.000001+00:00', "
      ++ "'event_name': 'open', 'user_id': 17, "
      ++ "'session_id': '0d9e8c7b-6a5f-4e3d-8c2b-1a0f9e8d7c6b', "
      ++ "'product_id': null, 'price': null, 'device': 'web', "
      ++ "'payload': {'source': 'synthetic_generator', 'is_late': true, "
      ++ "'session_step': 1}}") ++ [10%N].

(** A record without the field [device]. *)
Definition event_no_device : pystr :=
  js ("{'event_id': '6f1c2a90-3b7e-4c55-9d21-0a4be2f7c003', "
      ++ "'event_time': '2026-02-18T12:36:00.000000+00:00', "
      ++ "'ingestion_time': '2026-02-18T12:36:10.000000+00:00', "
      ++ "'event_name': 'view', 'user_id': 18, "
      ++ "'session_id': '0d9e8c7b-6a5f-4e3d-8c2b-1a0f9e8d7c6c', "
      ++ "'product_id': 12, 'price': null, "
      ++ "'payload': {'source': 'synthetic_generator'}}") ++ [10%N].

(** A record without the field [user_id]. *)
Definition event_no_user : pystr :=
  js ("{'event_id': '6f1c2a90-3b7e-4c55-9d21-0a4be2f7c004', "
      ++ "'event_time': '2026-02-18T12:36:00.000000+00:00', "
      ++ "'ingestion_time': '2026-02-18T12:36:10.000000+00:00', "
      ++ "'event_name': 'view', "
      ++ "'session_id': '0d9e8c7b-6a5f-4e3d-8c2b-1a0f9e8d7c6c', "
      ++ "'product_id': 12, 'price': null, 'device': 'ios', "
      ++ "'payload': {}}") ++ [10%N].

(** A line that is not JSON, and two blank ones. *)
Definition unparsable : pystr := js "{'event_id': 'truncated" ++ [10%N].
Definition newline : pystr := [10%N].
Definition spaces : pystr := py "   " ++ [9%N; 13%N; 10%N].

Definition dsn : pystr := py "postgresql://dwh@localhost:5432/dwh".

Definition empty_db : Database Row := {| raw_events := ∅; ingestion_runs := [] |}.

(** A world with the given staged and archived files and one empty store. *)
Definition world (staged archived : list (pystr * list pystr)) : World Row :=
  {| incoming := list_to_map staged;
     archive := list_to_map archived;
     stores := {[dsn := empty_db]} |}.

Definition first_try : Attempt :=
  {| att_run_id := 1001%N; att_started_at := 1771418110; att_finished_at := 1771418111 |}.

Definition second_try : Attempt :=
  {| att_run_id := 1002%N; att_started_at := 1771418170; att_finished_at := 1771418171 |}.

(** The attempts of one run of [main], by position. *)
Definition tries (k : nat) : Attempt :=
  {| att_run_id := 2000 + N.of_nat k;
     att_started_at := 1771418200 + 2 * Z.of_nat k;
     att_finished_at := 1771418201 + 2 * Z.of_nat k |}.

Definition aba : pystr := py "events_20260218T123510Z_3.jsonl".
Definition bad : pystr := py "events_20260218T123610Z_2.jsonl".
Definition good : pystr := py "events_20260218T123710Z_1.jsonl".

(** A connection opened on the empty store. *)
Definition fresh : Connection Row := {| conn_dsn := dsn; conn_db := empty_db |}.

(** The batch A, B, A, with a blank line in it and without. *)
Definition w_aba_blank : World Row :=
  world [(aba, [event_a; newline; event_b; event_a_late])] [].
Definition w_aba : World Row := world [(aba, [event_a; event_b; event_a_late])] [].

(** A batch of blank lines only. *)
Definition w_blank : World Row := world [(good, [newline; spaces])] [].

(** A batch whose second record is cut short. *)
Definition w_bad : World Row := world [(bad, [event_a; unparsable])] [].

(** Three staged batches, the second one bad. *)
Definition w_three : World Row :=
  world [(aba, [event_a; event_b; event_a_late]); (bad, [event_a; unparsable]);
         (good, [event_b])] [].


(** What [json.loads] makes of a line, and the dict of its members. *)
Definition parsed (line : pystr) : json := default JNull (loads (strip line)).
Definition dict_of (line : pystr) : gmap pystr json :=
  default ∅ (as_dict (parsed line)).

End Sample.

(** ** Vocabulary of the further properties *)

Section Further.
Context `{Libs}.

(** The event ids of the records of a file, in the order of its lines. *)
Definition line_ids (lines : list pystr) : list N :=
  lines ≫= λ line,
    if decide (strip line = []) then []
    else match row_of line with
         | inr r => [row_event_id r]
         | inl _ => []
         end.

(** The audit rows of the calls of a run of the loop that ended well, the
    first call being the [k]-th attempt. *)
Fixpoint audit_rows (att : nat → Attempt) (k : nat)
    (calls : list (pystr * result)) : list Run :=
  match calls with
  | (path, Done stats _) :: calls =>
      success_run (att k) path stats :: audit_rows att (S k) calls
  | _ => []
  end.

(** The worlds a run can lead to from [w]: every store keeps its events and
    its audit rows, every staged file is still staged or is archived, with
    its content, no file appears in the staging directory, and an archived
    file whose name is not staged stays. *)
Definition preserves (w w' : World Row) : Prop :=
  (∀ dsn, events_of dsn w ⊆ events_of dsn w'
          ∧ runs_of dsn w `prefix_of` runs_of dsn w')
  ∧ (∀ p lines, incoming w !! p = Some lines →
       incoming w' !! p = Some lines
       ∨ (incoming w' !! p = None ∧ archive w' !! p = Some lines))
  ∧ incoming w' ⊆ incoming w
  ∧ (∀ p old, archive w !! p = Some old → incoming w !! p = None →
       archive w' !! p = Some old).

End Further.

(** More sample worlds. *)
Module Sample2.
Import Ref Sample.

Definition part_a : pystr := py "events_20260218T123510Z_1a.jsonl".
Definition part_b : pystr := py "events_20260218T123510Z_2b.jsonl".
Definition notes : pystr := py "README.txt".

(** A batch staged in one piece and in two. *)
Definition w_split : World Row :=
  world [(part_a, [event_a; newline]); (part_b, [event_b; event_a_late]);
         (aba, [event_a; newline] ++ [event_b; event_a_late])] [].

(** Two good batches and a file that is no batch. *)
Definition w_two_good : World Row :=
  world [(good, [event_b]); (aba, [event_a; event_b; event_a_late]);
         (notes, [py "staging area"])] [].

(** The record of [event_no_device] as the dict [json.loads] builds, and
    the values the loader binds for it. *)
Definition record_no_device : gmap pystr json :=
  list_to_map
    [(py "event_id", JStr (py "6f1c2a90-3b7e-4c55-9d21-0a4be2f7c003"));
     (py "event_time", JStr (py "2026-02-18T12:36:00.000000+00:00"));
     (py "ingestion_time", JStr (py "2026-02-18T12:36:10.000000+00:00"));
     (py "event_name", JStr (py "view"));
     (py "user_id", JInt 18);
     (py "session_id", JStr (py "0d9e8c7b-6a5f-4e3d-8c2b-1a0f9e8d7c6c"));
     (py "product_id", JInt 12);
     (py "price", JNull);
     (py "payload", JObj [(py "source", JStr (py "synthetic_generator"))])].

Definition params_no_device : Params :=
  {| p_event_id := Val (JStr (py "6f1c2a90-3b7e-4c55-9d21-0a4be2f7c003"));
     p_event_time := Val (JStr (py "2026-02-18T12:36:00.000000+00:00"));
     p_ingestion_time := Val (JStr (py "2026-02-18T12:36:10.000000+00:00"));
     p_event_name := Val (JStr (py "view"));
     p_user_id := Val (JInt 18);
     p_session_id := Val (JStr (py "0d9e8c7b-6a5f-4e3d-8c2b-1a0f9e8d7c6c"));
     p_product_id := Val (JInt 12);
     p_price := Val JNull;
     p_device := Val JNull;
     p_payload := Dumps (JObj [(py "source", JStr (py "synthetic_generator"))]) |}.

(** The same record with a name that is a number, a user that is a word and
    a device that is a list. *)
Definition record_ill_typed : gmap pystr json :=
  <[py "event_name" := JInt 404]>
    (<[py "user_id" := JStr (py "eighteen")]>
       (<[py "device" := JArr [JStr (py "web")]]> record_no_device)).

(** The record [event_a] as a dict, and its [event_id] as a number. *)
Definition dict_a : gmap pystr json := dict_of event_a.
Definition id_a : N :=
  default 0%N (uuid_in (py "6f1c2a90-3b7e-4c55-9d21-0a4be2f7c001")).

End Sample2.

(** * The generator of synthetic events

    A shallow embedding of [src/pipelines/generate_events.py].  A [datetime]
    is the number of microseconds since the epoch and a [timedelta] a number
    of microseconds; the module [random], [uuid.uuid4], the clock and the
    formatting of datetimes and of floats are the fields of [Entropy], and
    every draw takes the state of the source and returns the next one.  A
    function that may raise returns an [option].

    The numbers of microseconds are unbounded: the [OverflowError] that
    Python's datetime arithmetic raises outside the years 1 to 9999 is not
    described, so [None] stands for an exception of [random] only, and what
    is said of a session is said of a call that returns. *)

Module Gen.

(** [Event] *)
Record Event := {
  event_id : pystr;
  event_time : pystr;
  ingestion_time : pystr;
  event_name : pystr;
  user_id : Z;
  session_id : pystr;
  product_id : option Z;
  price : option float;
  device : pystr;
  payload : list (pystr * json)
}.

(** [None] or the value, as [json.dumps] sees it. *)
Definition opt_json {A} (f : A → json) (o : option A) : json :=
  match o with Some a => f a | None => JNull end.

(** The dict that [Event.to_jsonl] hands to [json.dumps]. *)
Definition to_json (e : Event) : json :=
  JObj [(py "event_id", JStr (event_id e));
        (py "event_time", JStr (event_time e));
        (py "ingestion_time", JStr (ingestion_time e));
        (py "event_name", JStr (event_name e));
        (py "user_id", JInt (user_id e));
        (py "session_id", JStr (session_id e));
        (py "product_id", opt_json JInt (product_id e));
        (py "price", opt_json JFloat (price e));
        (py "device", JStr (device e));
        (py "payload", JObj (payload e))].

(** What the generator takes from outside. *)
Class Entropy := {
  (** The state of the sources of randomness and of the clock. *)
  gen : Type;
  (** [random.random()] *)
  random : gen → float * gen;
  (** The integer [random.randint(a, b)] draws when [a <= b]. *)
  randrange : Z → Z → gen → Z * gen;
  randrange_spec a b g : a ≤ b → a ≤ (randrange a b g).1 ≤ b;
  (** [str(uuid.uuid4())] *)
  uuid4 : gen → pystr * gen;
  (** [utc_now()] *)
  utc_now : gen → Z * gen;
  (** [iso(dt)] *)
  iso : Z → pystr;
  (** [round(x, 2)] *)
  round2 : float → float
}.

Section Generator.
Context `{Entropy}.

(** [random.randint(a, b)]: it raises on an empty range. *)
Definition randint (a b : Z) (g : gen) : option (Z * gen) :=
  if a <=? b then Some (randrange a b g) else None.

(** [itertools.accumulate(weights)] *)
Fixpoint accumulate_from (acc : float) (ws : list float) : list float :=
  match ws with
  | [] => []
  | w :: ws => (acc + w)%float :: accumulate_from (acc + w)%float ws
  end.

Definition accumulate (ws : list float) : list float :=
  match ws with
  | [] => []
  | w :: ws => w :: accumulate_from w ws
  end.

(** [bisect.bisect_right(a, x, lo, hi)]; the distance of [lo] and [hi]
    shrinks at every turn, so [hi - lo] turns are enough. *)
Fixpoint bisect (turns : nat) (a : list float) (x : float) (lo hi : nat) : nat :=
  match turns with
  | O => lo
  | S turns =>
      if (lo <? hi)%nat then
        let mid := ((lo + hi) / 2)%nat in
        if (x <? nth mid a 0)%float then bisect turns a x lo mid
        else bisect turns a x (S mid) hi
      else lo
  end.

(** [random.choices(population, weights=weights, k=1)[0]], as CPython
    computes it: it raises when the two lists differ in length, when there
    is no weight, and when the total of the weights is not a positive finite
    number. *)
Definition choices (population : list pystr) (weights : list float) (g : gen)
  : option (pystr * gen) :=
  let cum_weights := accumulate weights in
  let n := length population in
  if negb (length cum_weights =? n)%nat then None
  else
    match last cum_weights with
    | None => None
    | Some c =>
        let total := (c + 0)%float in
        if (total <=? 0)%float then None
        else if negb (is_finite total) then None
        else
          let '(r, g) := random g in
          let i := bisect (n - 1) cum_weights (r * total)%float 0 (n - 1) in
          match population !! i with
          | Some x => Some (x, g)
          | None => None
          end
    end.

Definition weighted_choice (items : list (pystr * float)) (g : gen)
  : option (pystr * gen) :=
  choices items.*1 items.*2 g.

(** [timedelta(seconds=s)] and [timedelta(minutes=m, seconds=s)] *)
Definition seconds (s : Z) : Z := s * 1000000.
Definition minutes_seconds (m s : Z) : Z := (m * 60 + s) * 1000000.

(** The payload of the event at position [i] of its session. *)
Definition payload_of (is_late : bool) (i : Z) : list (pystr * json) :=
  [(py "source", JStr (py "synthetic_generator"));
   (py "is_late", JBool is_late);
   (py "session_step", JInt (i + 1))].

(** The loop [for i, name in enumerate(event_names)] of
    [generate_session_events], from position [i] on. *)
Fixpoint session_loop (names : list pystr) (i : Z) (event_time : Z)
    (user_id : Z) (session_id device : pystr) (product_id : Z)
    (base_ingestion_time : Z) (late_event_rate duplicate_rate : float)
    (g : gen) : option (list Event * gen) :=
  match names with
  | [] => Some ([], g)
  | name :: names =>
      '(s, g) ← randint 2 40 g;
      let event_time := event_time + seconds s in
      let '(r, g) := random g in
      '(effective_event_time, is_late, g) ←
        (if (r <? late_event_rate)%float then
           '(m, g) ← randint 10 240 g;
           '(s, g) ← randint 0 59 g;
           Some (event_time - minutes_seconds m s, true, g)
         else Some (event_time, false, g));
      let '(price, g) :=
        if bool_decide (name = py "purchase") then
          let '(r, g) := random g in (Some (round2 (5 + 245 * r)%float), g)
        else (None, g) in
      let payload := payload_of is_late i in
      let '(id, g) := uuid4 g in
      let e := {| event_id := id;
                  event_time := iso effective_event_time;
                  ingestion_time := iso base_ingestion_time;
                  event_name := name;
                  user_id := user_id;
                  session_id := session_id;
                  product_id :=
                    if bool_decide (name ∈ py <$> ["view"; "cart"; "purchase"])
                    then Some product_id else None;
                  price := price;
                  device := device;
                  payload := payload |} in
      let '(r, g) := random g in
      let events := if (r <? duplicate_rate)%float then [e; e] else [e] in
      '(rest, g) ← session_loop names (i + 1) event_time user_id session_id
                     device product_id base_ingestion_time late_event_rate
                     duplicate_rate g;
      Some (events ++ rest, g)
  end.

(** The names of the events of a session that goes as far as the flags
    say. *)
Definition event_names (do_view do_cart do_purchase : bool) : list pystr :=
  [py "open"]
  ++ (if do_view then [py "view"] else [])
  ++ (if do_cart then [py "cart"] else [])
  ++ (if do_purchase then [py "purchase"] else []).

Definition generate_session_events (user_id : Z) (base_ingestion_time : Z)
    (late_event_rate duplicate_rate : float) (g : gen)
  : option (list Event * gen) :=
  let '(session_id, g) := uuid4 g in
  '(device, g) ← weighted_choice
                   [(py "web", 0.55%float); (py "ios", 0.25%float);
                    (py "android", 0.20%float)] g;
  '(product_id, g) ← randint 1 5000 g;
  let '(r, g) := random g in
  let do_view := (r <? 0.85)%float in
  let '(do_cart, g) :=
    if do_view then let '(r, g) := random g in ((r <? 0.30)%float, g)
    else (false, g) in
  let '(do_purchase, g) :=
    if do_cart then let '(r, g) := random g in ((r <? 0.55)%float, g)
    else (false, g) in
  '(s, g) ← randint 0 30 g;
  session_loop (event_names do_view do_cart do_purchase) 0
    (base_ingestion_time - seconds s) user_id session_id device product_id
    base_ingestion_time late_event_rate duplicate_rate g.

(** How a run of [generate_events] ends. *)
Inductive ended (A : Type) :=
| Returns (a : A)
| Raises
| Unfinished.
Arguments Returns {A}.
Arguments Raises {A}.
Arguments Unfinished {A}.

(** [all_events[:rows]] *)
Definition slice_to (rows : Z) (l : list Event) : list Event :=
  if 0 <=? rows then take (Z.to_nat rows) l
  else take (length l - Z.to_nat (- rows)) l.

(** The [while len(all_events) < rows] loop, for at most [turns] turns. *)
Fixpoint generate_loop (turns : nat) (rows users : Z)
    (late_event_rate duplicate_rate : float) (all_events : list Event)
    (g : gen) : ended (list Event * gen) :=
  if Z.of_nat (length all_events) <? rows then
    match turns with
    | O => Unfinished
    | S turns =>
        match randint 1 users g with
        | None => Raises
        | Some (user_id, g) =>
            let '(ingestion_time, g) := utc_now g in
            match generate_session_events user_id ingestion_time
                    late_event_rate duplicate_rate g with
            | None => Raises
            | Some (session_events, g) =>
                generate_loop turns rows users late_event_rate duplicate_rate
                  (all_events ++ session_events) g
            end
        end
    end
  else Returns (all_events, g).

(** [generate_events]; every session adds an event, so [rows] turns of the
    loop are enough. *)
Definition generate_events (rows users : Z)
    (late_event_rate duplicate_rate : float) (g : gen)
  : ended (list Event * gen) :=
  match generate_loop (Z.to_nat rows) rows users late_event_rate
          duplicate_rate [] g with
  | Returns (all_events, g) => Returns (slice_to rows all_events, g)
  | Raises => Raises
  | Unfinished => Unfinished
  end.

(** ** Vocabulary of the generator's properties *)

(** The stages of a session, in order, and the devices. *)
Definition funnel : list pystr := py <$> ["open"; "view"; "cart"; "purchase"].
Definition devices : list pystr := py <$> ["web"; "ios"; "android"].

(** The events of a session, written out: each event once, or twice when it
    was duplicated. *)
Definition written (groups : list (Event * bool)) : list Event :=
  groups ≫= λ '(e, twice), if twice : bool then [e; e] else [e].

(** The fields of the event at stage [i] of the session of [user], staged
    at [base], that its stage and its session determine. *)
Definition event_fields (user base : Z) (sid dev : pystr) (pid : Z) (i : nat)
    (e : Event) : Prop :=
  funnel !! i = Some (event_name e)
  ∧ user_id e = user
  ∧ session_id e = sid
  ∧ device e = dev
  ∧ ingestion_time e = iso base
  ∧ product_id e = (if decide (i = 0%nat) then None else Some pid)
  ∧ (price e = None ↔ i ≠ 3%nat).

(** The time of the event at stage [i]: the moment [t] it was given, early
    by 10 minutes to 4 hours and 59 seconds when it is late, and the flag
    and the step in its payload. *)
Definition event_timing (base : Z) (i : nat) (e : Event) : Prop :=
  ∃ is_late t,
    payload e = payload_of is_late (Z.of_nat i)
    ∧ event_time e = iso t
    ∧ if is_late : bool
      then base + seconds (2 * (Z.of_nat i + 1) - 30 - 14459) ≤ t
           ∧ t ≤ base + seconds (40 * (Z.of_nat i + 1) - 600)
      else base + seconds (2 * (Z.of_nat i + 1) - 30) ≤ t
           ∧ t ≤ base + seconds (40 * (Z.of_nat i + 1)).

(** The values an event generated for one of [users] users can have in the
    fields that its name determines. *)
Definition plausible (users : Z) (e : Event) : Prop :=
  event_name e ∈ funnel
  ∧ device e ∈ devices
  ∧ 1 ≤ user_id e ≤ users
  ∧ (product_id e = None ↔ event_name e = py "open")
  ∧ (∀ pid, product_id e = Some pid → 1 ≤ pid ≤ 5000)
  ∧ (price e = None ↔ event_name e ≠ py "purchase").

End Generator.

Arguments Returns {A}.
Arguments Raises {A}.
Arguments Unfinished {A}.

End Gen.

(** A reference source for the generator: a counter stands for the state of
    the random generator and of the clock, and the formatting follows
    CPython ([datetime.isoformat], [str] of a [UUID], [round]). *)
Module GenRef.
Import Gen.

(** [n] written with [k] digits in base [b], zero-padded. *)
Fixpoint digits (b : Z) (k : nat) (n : Z) (acc : pystr) : pystr :=
  match k with
  | O => acc
  | S k =>
      let d := n mod b in
      let c := if d <? 10 then 48 + d else 87 + d in
      digits b k (n / b) (Z.to_N c :: acc)
  end.

(** The date of the day [z] days after 1970-01-01, in the proleptic
    Gregorian calendar. *)
Definition civil_from_days (z : Z) : Z * Z * Z :=
  let z := z + 719468 in
  let era := z / 146097 in
  let doe := z - era * 146097 in
  let yoe := (doe - doe / 1460 + doe / 36524 - doe / 146096) / 365 in
  let doy := doe - (365 * yoe + yoe / 4 - yoe / 100) in
  let mp := (5 * doy + 2) / 153 in
  let d := doy - (153 * mp + 2) / 5 + 1 in
  let m := if mp <? 10 then mp + 3 else mp - 9 in
  (yoe + era * 400 + (if m <=? 2 then 1 else 0), m, d).

(** [dt.astimezone(timezone.utc).isoformat()] of the moment [t]
    microseconds after the epoch: the fraction is left out when it is
    zero. *)
Definition isoformat (t : Z) : pystr :=
  let us := t mod 1000000 in
  let s := t / 1000000 in
  let '(y, m, d) := civil_from_days (s / 86400) in
  let r := s mod 86400 in
  digits 10 4 y [] ++ py "-" ++ digits 10 2 m [] ++ py "-" ++ digits 10 2 d []
  ++ py "T" ++ digits 10 2 (r / 3600) [] ++ py ":"
  ++ digits 10 2 (r / 60 mod 60) [] ++ py ":" ++ digits 10 2 (r mod 60) []
  ++ (if us =? 0 then [] else py "." ++ digits 10 6 us [])
  ++ py "+00:00".

(** [str(UUID(int=n, version=4))] *)
Definition uuid_str (n : Z) : pystr :=
  let n := Z.land n (Z.lnot (Z.shiftl 0xc000 48)) in
  let n := Z.lor n (Z.shiftl 0x8000 48) in
  let n := Z.land n (Z.lnot (Z.shiftl 0xf000 64)) in
  let n := Z.lor n (Z.shiftl 4 76) in
  let h := digits 16 32 n [] in
  take 8 h ++ py "-" ++ take 4 (drop 8 h) ++ py "-" ++ take 4 (drop 12 h)
  ++ py "-" ++ take 4 (drop 16 h) ++ py "-" ++ drop 20 h.

(** The integer nearest to [q / d], the even one on a tie. *)
Definition round_half_even (q d : Z) : Z :=
  let a := q / d in
  let r := q mod d in
  if 2 * r <? d then a
  else if d <? 2 * r then a + 1
  else if Z.even a then a else a + 1.

(** [round(x, 2)]: the float nearest to the decimal with two places that is
    nearest to the exact value of [x]. *)
Definition round_2 (x : float) : float :=
  match Prim2SF x with
  | S754_finite s m e =>
      let n := if 0 <=? e then Zpos m * 100 * 2 ^ e
               else round_half_even (Zpos m * 100) (2 ^ (- e)) in
      Ref.float_of_decimal s n (-2)
  | _ => x
  end.

(** Draws that depend on the counter alone. *)
Definition draw (g : nat) : Z := (Z.of_nat g * 7919 + 104729) mod 1000003.

#[export] Instance entropy : Entropy := {|
  gen := nat;
  random g := (Ref.float_of_decimal false (draw g mod 1000) (-3), S g);
  randrange a b g := (a + draw g mod (b - a + 1), S g);
  randrange_spec a b g Hab :=
    ltac:(cbn [fst]; pose proof (Z.mod_pos_bound (draw g) (b - a + 1));
          lia);
  uuid4 g := (uuid_str (draw g * 0x9e3779b97f4a7c15f39cc0605cedc835
                        mod 2 ^ 128), S g);
  utc_now g := (1771418110123456 + Z.of_nat g * 250000, S g);
  iso := isoformat;
  round2 := round_2
|}.

(** The source at the [n]th draw. *)
Definition from (n : nat) : gen := n.

End GenRef.

(** * Properties *)

Section Properties.
Context `{Libs}.
Implicit Types (line : pystr) (lines : list pystr) (tbl : gmap N Row).
Implicit Types (w : World Row) (conn : Connection Row) (stats : FileStats).

(** ** The loop, one line at a time *)

Lemma load_lines_blank line lines n m tbl :
  blank line →
  load_lines (line :: lines) n m tbl = load_lines lines n m tbl.
Proof.
  unfold blank. intros Hb. simpl. by rewrite bool_decide_eq_true_2.
Qed.

Lemma load_lines_raise line lines n m tbl e :
  ¬ blank line → row_of line = inl e →
  load_lines (line :: lines) n m tbl = inl e.
Proof.
  unfold blank, row_of. intros Hb Hr. simpl.
  rewrite bool_decide_eq_false_2 by done.
  unfold execute_insert.
  destruct (prepare (strip line)) as [e1|obj]; simpl in *; [congruence|].
  destruct (bind_params obj) as [e2|p]; simpl in *; [congruence|].
  destruct (insert_values p); congruence.
Qed.

Lemma load_lines_row line lines n m tbl r :
  ¬ blank line → row_of line = inr r →
  load_lines (line :: lines) n m tbl =
    match tbl !! row_event_id r with
    | Some _ => load_lines lines (n + 1) (m + 0) tbl
    | None => load_lines lines (n + 1) (m + 1) (<[row_event_id r := r]> tbl)
    end.
Proof.
  unfold blank, row_of. intros Hb Hr. simpl.
  rewrite bool_decide_eq_false_2 by done.
  unfold execute_insert.
  destruct (prepare (strip line)) as [e1|obj]; simpl in *; [congruence|].
  destruct (bind_params obj) as [e2|p]; simpl in *; [congruence|].
  destruct (insert_values p); [|congruence].
  injection Hr as ->. by destruct (tbl !! row_event_id r).
Qed.

(** The three ways a line can go. *)
Lemma line_cases line :
  blank line ∨ (¬ blank line ∧ ∃ e, row_of line = inl e)
  ∨ (¬ blank line ∧ ∃ r, row_of line = inr r).
Proof.
  destruct (decide (strip line = [])) as [Hb|Hb]; [by left|right].
  destruct (row_of line) as [e|r] eqn:Hr; [left|right]; eauto.
Qed.

(** Step through the head of the list of lines in hypothesis and goal. *)
Ltac step_line line :=
  destruct (line_cases line) as [Hb|[[Hb [e He]]|[Hb [r Hr]]]];
  [ rewrite ?(load_lines_blank _ _ _ _ _ Hb) in *
  | rewrite ?(load_lines_raise _ _ _ _ _ _ Hb He) in *
  | rewrite ?(load_lines_row _ _ _ _ _ _ Hb Hr) in * ].

(** Each line adds one to [rows_in_file] unless blank, and zero or one to
    [rows_loaded]. *)
Lemma load_lines_counts lines n m tbl n' m' tbl' :
  load_lines lines n m tbl = inr (n', m', tbl') →
  n ≤ n' ∧ m ≤ m' ∧ m' - m ≤ n' - n.
Proof.
  revert n m tbl. induction lines as [|line lines IH]; intros n m tbl Hl.
  - simpl in Hl. injection Hl as -> -> ->. lia.
  - step_line line.
    + by apply IH in Hl.
    + discriminate.
    + destruct (tbl !! row_event_id r); apply IH in Hl; lia.
Qed.

(** The table only grows, and every loaded line has its event in it. *)
Lemma load_lines_subseteq lines n m tbl n' m' tbl' :
  load_lines lines n m tbl = inr (n', m', tbl') → tbl ⊆ tbl'.
Proof.
  revert n m tbl. induction lines as [|line lines IH]; intros n m tbl Hl.
  - simpl in Hl. by injection Hl as -> -> ->.
  - step_line line.
    + by apply IH in Hl.
    + discriminate.
    + destruct (tbl !! row_event_id r) eqn:Hk; apply IH in Hl; [done|].
      etrans; [|exact Hl]. by apply insert_subseteq.
Qed.

Lemma load_lines_rows lines n m tbl n' m' tbl' :
  load_lines lines n m tbl = inr (n', m', tbl') →
  Forall (λ line, blank line ∨
            ∃ r, row_of line = inr r ∧ is_Some (tbl' !! row_event_id r)) lines.
Proof.
  revert n m tbl. induction lines as [|line lines IH]; intros n m tbl Hl.
  - constructor.
  - step_line line.
    + constructor; [by left|by apply IH in Hl].
    + discriminate.
    + constructor; [|by destruct (tbl !! row_event_id r); apply IH in Hl].
      right. exists r. split; [done|].
      destruct (tbl !! row_event_id r) as [r0|] eqn:Hk;
        apply load_lines_subseteq in Hl.
      * exists r0. by eapply lookup_weaken.
      * exists r. eapply lookup_weaken; [|exact Hl]. apply lookup_insert_eq.
Qed.

(** Lines whose events are all in the table leave it as it is and load
    nothing. *)
Lemma load_lines_present lines n m tbl :
  Forall (λ line, blank line ∨
            ∃ r, row_of line = inr r ∧ is_Some (tbl !! row_event_id r)) lines →
  load_lines lines n m tbl =
    inr (n + Z.of_nat (length (filter (λ line, ¬ blank line) lines)), m, tbl).
Proof.
  intros Hall. revert n m. induction Hall as [|line lines Hline _ IH]; intros n m.
  - simpl. do 3 f_equal. lia.
  - destruct Hline as [Hb|(r & Hr & [r0 Hk])].
    + rewrite load_lines_blank by done. rewrite IH.
      by rewrite filter_cons_False by (by intros ?).
    + destruct (decide (blank line)) as [Hb|Hb].
      * rewrite load_lines_blank by done. rewrite IH.
        by rewrite filter_cons_False by (by intros ?).
      * rewrite (load_lines_row _ _ _ _ _ _ Hb Hr), Hk, IH.
        rewrite filter_cons_True by done. simpl length.
        do 3 f_equal; lia.
Qed.

(** The count of the records seen is the count of the lines that are not
    blank. *)
Lemma load_lines_in_file lines n m tbl n' m' tbl' :
  load_lines lines n m tbl = inr (n', m', tbl') →
  n' = n + Z.of_nat (length (filter (λ line, ¬ blank line) lines)).
Proof.
  revert n m tbl. induction lines as [|line lines IH]; intros n m tbl Hl.
  - simpl in *. injection Hl as -> -> ->. lia.
  - step_line line.
    + rewrite filter_cons_False by (by intros ?). by apply IH in Hl.
    + discriminate.
    + rewrite filter_cons_True by done. simpl length.
      destruct (tbl !! row_event_id r); apply IH in Hl; lia.
Qed.

(** Blank lines can be dropped from the file. *)
Lemma load_lines_filter lines n m tbl :
  load_lines (filter (λ line, ¬ blank line) lines) n m tbl =
  load_lines lines n m tbl.
Proof.
  revert n m tbl. induction lines as [|line lines IH]; intros n m tbl; [done|].
  destruct (line_cases line) as [Hb|[[Hb [e He]]|[Hb [r Hr]]]].
  - rewrite filter_cons_False by (by intros ?).
    by rewrite load_lines_blank.
  - rewrite filter_cons_True by done.
    by rewrite !(load_lines_raise _ _ _ _ _ _ Hb He).
  - rewrite filter_cons_True by done.
    rewrite !(load_lines_row _ _ _ _ _ _ Hb Hr).
    destruct (tbl !! row_event_id r); apply IH.
Qed.

(** One record that cannot be loaded makes the whole loop raise. *)
Lemma load_lines_invalid lines n m tbl :
  Exists invalid lines → ∃ e, load_lines lines n m tbl = inl e.
Proof.
  intros Hex. revert n m tbl.
  induction lines as [|line lines IH]; intros n m tbl; [by inversion Hex|].
  step_line line.
  - apply IH. inversion Hex as [? ? [Hnb _]|]; [done|assumption].
  - eauto.
  - destruct (tbl !! row_event_id r); apply IH;
      (inversion Hex as [? ? [_ [e He]]|]; [congruence|assumption]).
Qed.

(** ** What a successful load and a successful [with] block are made of *)

Lemma load_jsonl_file_inr conn path w stats conn' :
  load_jsonl_file conn path w = inr (stats, conn') →
  ∃ lines n m tbl,
    incoming w !! path = Some lines
    ∧ load_lines lines 0 0 (raw_events (conn_db conn)) = inr (n, m, tbl)
    ∧ stats = {| rows_in_file := n; rows_loaded := m; rows_deduped := n - m |}
    ∧ conn' = {| conn_dsn := conn_dsn conn;
                 conn_db := {| raw_events := tbl;
                               ingestion_runs := ingestion_runs (conn_db conn) |} |}.
Proof.
  unfold load_jsonl_file. intros Hl.
  destruct (incoming w !! path) as [lines|]; [|discriminate].
  destruct (load_lines lines 0 0 _) as [e|[[n m] tbl]] eqn:Hll; [discriminate|].
  injection Hl as <- <-. by exists lines, n, m, tbl.
Qed.

Lemma with_connect_inr att dsn path w stats w1 :
  with_connect att dsn path w = inr (stats, w1) →
  ∃ db lines n m tbl,
    stores w !! dsn = Some db
    ∧ incoming w !! path = Some lines
    ∧ load_lines lines 0 0 (raw_events db) = inr (n, m, tbl)
    ∧ stats = {| rows_in_file := n; rows_loaded := m; rows_deduped := n - m |}
    ∧ int4 n = true ∧ int4 m = true ∧ int4 (n - m) = true
    ∧ w1 = committed att dsn path w db stats tbl.
Proof.
  unfold with_connect, connect. intros Hw.
  destruct (stores w !! dsn) as [db|] eqn:Hdb; [|discriminate].
  simpl in Hw.
  destruct (load_jsonl_file _ path w) as [e|[stats' conn']] eqn:Hl;
    [discriminate|].
  apply load_jsonl_file_inr in Hl as (lines & n & m & tbl & Hf & Hll & -> & ->).
  simpl in *. unfold insert_ingestion_run in Hw. simpl in Hw.
  destruct (int4 n) eqn:Hn; [|discriminate].
  destruct (int4 m) eqn:Hm; [|discriminate].
  destruct (int4 (n - m)) eqn:Hd; [|discriminate].
  simpl in Hw. injection Hw as <- <-.
  by exists db, lines, n, m, tbl.
Qed.

Lemma with_connect_commit att dsn path w db lines n m tbl :
  stores w !! dsn = Some db →
  incoming w !! path = Some lines →
  load_lines lines 0 0 (raw_events db) = inr (n, m, tbl) →
  int4 n = true → int4 m = true → int4 (n - m) = true →
  let stats := {| rows_in_file := n; rows_loaded := m; rows_deduped := n - m |} in
  with_connect att dsn path w = inr (stats, committed att dsn path w db stats tbl).
Proof.
  intros Hdb Hf Hll Hn Hm Hd. unfold with_connect, connect, load_jsonl_file.
  rewrite Hdb. simpl. rewrite Hf, Hll. simpl.
  unfold insert_ingestion_run. simpl. by rewrite Hn, Hm, Hd.
Qed.

Lemma events_of_committed att dsn path w db stats tbl :
  events_of dsn (committed att dsn path w db stats tbl) = tbl.
Proof. unfold events_of, committed. simpl. by rewrite lookup_insert_eq. Qed.

Lemma runs_of_committed att dsn path w db stats tbl :
  runs_of dsn (committed att dsn path w db stats tbl)
  = ingestion_runs db ++ [success_run att path stats].
Proof. unfold runs_of, committed. simpl. by rewrite lookup_insert_eq. Qed.

Lemma events_of_moved dsn path lines w :
  events_of dsn (moved path lines w) = events_of dsn w.
Proof. reflexivity. Qed.

Lemma runs_of_moved dsn path lines w :
  runs_of dsn (moved path lines w) = runs_of dsn w.
Proof. reflexivity. Qed.

Lemma archive_file_staged path lines w :
  incoming w !! path = Some lines →
  archive_file path w = inr (path, moved path lines w).
Proof. intros Hf. unfold archive_file. by rewrite Hf. Qed.

(** An attempt ends in one of two ways: the [with] block raised and the
    world is the one it started in; or it committed and the file moved. *)
Lemma ingest_one_file_cases att dsn path w :
  (∃ e, with_connect att dsn path w = inl e
        ∧ ingest_one_file att dsn path w
          = (w, Raised (RuntimeError (failed_to_ingest path e) (Some e))))
  ∨ (∃ stats w1 lines,
        with_connect att dsn path w = inr (stats, w1)
        ∧ incoming w !! path = Some lines
        ∧ ingest_one_file att dsn path w
          = (moved path lines w1, Done stats path)).
Proof.
  unfold ingest_one_file.
  destruct (with_connect att dsn path w) as [e|[stats w1]] eqn:Hw.
  - left. eauto.
  - right. destruct (with_connect_inr _ _ _ _ _ _ Hw)
      as (db & lines & n & m & tbl & Hdb & Hf & Hll & -> & Hn & Hm & Hd & ->).
    eexists _, _, lines. split; [done|]. split; [done|].
    by rewrite (archive_file_staged path lines).
Qed.

(** ** Counts *)

(** C3: for every run produced by loading a batch, [rows_in_file] is the sum
    of [rows_loaded] and [rows_deduped], none of the three is negative, and
    [rows_loaded] never exceeds [rows_in_file]. *)
Theorem load_jsonl_file_partition conn path w stats conn' :
  load_jsonl_file conn path w = inr (stats, conn') →
  rows_in_file stats = rows_loaded stats + rows_deduped stats
  ∧ 0 ≤ rows_in_file stats ∧ 0 ≤ rows_loaded stats ∧ 0 ≤ rows_deduped stats
  ∧ rows_loaded stats ≤ rows_in_file stats.
Proof.
  intros Hl.
  apply load_jsonl_file_inr in Hl as (lines & n & m & tbl & _ & Hll & -> & _).
  apply load_lines_counts in Hll. simpl. lia.
Qed.

(** The audit row of a committed attempt carries the counts of the load. *)
Lemma recorded_run_partition att dsn path w stats w1 :
  with_connect att dsn path w = inr (stats, w1) →
  ∃ run, last (runs_of dsn w1) = Some run
    ∧ status run = py "success" ∧ error_message run = None
    ∧ run_stats run = stats
    ∧ rows_in_file stats = rows_loaded stats + rows_deduped stats
    ∧ 0 ≤ rows_loaded stats ≤ rows_in_file stats.
Proof.
  intros Hw. apply with_connect_inr in Hw
    as (db & lines & n & m & tbl & _ & _ & Hll & -> & _ & _ & _ & ->).
  exists (success_run att path
            {| rows_in_file := n; rows_loaded := m; rows_deduped := n - m |}).
  rewrite runs_of_committed, last_snoc.
  apply load_lines_counts in Hll. simpl. repeat split; lia.
Qed.

(** ** Idempotence *)

(** C2: once a batch has been loaded, loading it again into a store that
    still holds its events returns [rows_loaded = 0] (every record of the
    file counted as deduplicated) and leaves the connection's view of the
    store, the table with every row in it, exactly as it was. *)
Theorem load_jsonl_file_idempotent conn path w stats conn1 conn2 :
  load_jsonl_file conn path w = inr (stats, conn1) →
  dom (raw_events (conn_db conn1)) ⊆ dom (raw_events (conn_db conn2)) →
  ∃ stats2,
    load_jsonl_file conn2 path w = inr (stats2, conn2)
    ∧ rows_loaded stats2 = 0
    ∧ rows_in_file stats2 = rows_in_file stats
    ∧ rows_deduped stats2 = rows_in_file stats.
Proof.
  intros Hl Hdom.
  apply load_jsonl_file_inr in Hl as (lines & n & m & tbl & Hf & Hll & -> & ->).
  simpl in Hdom.
  pose proof (load_lines_in_file _ _ _ _ _ _ _ Hll) as Hn.
  apply load_lines_rows in Hll.
  assert (Hall : Forall (λ line, blank line ∨ ∃ r, row_of line = inr r
             ∧ is_Some (raw_events (conn_db conn2) !! row_event_id r)) lines).
  { eapply Forall_impl; [exact Hll|]. intros line [Hb|(r & Hr & Hk)]; [by left|].
    right. exists r. split; [done|].
    apply elem_of_dom, Hdom, elem_of_dom, Hk. }
  unfold load_jsonl_file. rewrite Hf, (load_lines_present _ 0 0 _ Hall).
  eexists. split.
  - f_equal. f_equal. by destruct conn2 as [d [t r]].
  - simpl. lia.
Qed.

(** ** Blank lines and the empty batch *)

(** C9: blank lines are skipped and add nothing to [rows_in_file]: loading a
    file gives what loading it without its blank lines gives, and the count
    is the number of lines that are not blank.  A staged batch with no
    other line is ingested with the counts 0, 0, 0 and the status
    [success], and is moved to the archive. *)
Theorem blank_lines_skipped att dsn path w lines db :
  incoming w !! path = Some lines →
  stores w !! dsn = Some db →
  (∀ n m tbl,
     load_lines lines n m tbl
     = load_lines (filter (λ line, ¬ blank line) lines) n m tbl)
  ∧ (∀ conn stats conn',
       load_jsonl_file conn path w = inr (stats, conn') →
       rows_in_file stats
       = Z.of_nat (length (filter (λ line, ¬ blank line) lines)))
  ∧ (Forall blank lines →
     let zero := {| rows_in_file := 0; rows_loaded := 0; rows_deduped := 0 |} in
     ingest_one_file att dsn path w
     = (moved path lines (committed att dsn path w db zero (raw_events db)),
        Done zero path)
     ∧ status (success_run att path zero) = py "success").
Proof.
  intros Hf Hdb. split; [|split].
  - intros. by rewrite load_lines_filter.
  - intros conn stats conn' Hl.
    apply load_jsonl_file_inr in Hl as (lines' & n & m & tbl & Hf' & Hll & -> & _).
    rewrite Hf in Hf'. injection Hf' as <-.
    apply load_lines_in_file in Hll. simpl. lia.
  - intros Hblank zero. split; [|done].
    assert (Hll : load_lines lines 0 0 (raw_events db) = inr (0, 0, raw_events db)).
    { rewrite load_lines_present
        by (eapply Forall_impl; [exact Hblank|]; by left).
      do 3 f_equal.
      replace (filter (λ line, ¬ blank line) lines) with (@nil pystr); [done|].
      symmetry. clear -Hblank. induction Hblank as [|l ls Hl _ IH]; [done|].
      by rewrite filter_cons_False by (by intros ?). }
    unfold ingest_one_file.
    rewrite (with_connect_commit att dsn path w db lines 0 0 _ Hdb Hf Hll)
      by done.
    by rewrite (archive_file_staged path lines).
Qed.

(** ** Duplicates inside one batch *)

(** C8: a batch of three valid records whose event ids are A, B, A, loaded
    into an empty store, is reported with [rows_in_file = 3],
    [rows_loaded = 2], [rows_deduped = 1] and the status [success], and is
    moved to the archive; the table then holds two rows, and the one under A
    is the row of the first record, not of the third. *)
Theorem first_seen_wins att dsn path w db l1 l2 l3 r1 r2 r3 :
  incoming w !! path = Some [l1; l2; l3] →
  stores w !! dsn = Some db →
  raw_events db = ∅ →
  ¬ blank l1 → ¬ blank l2 → ¬ blank l3 →
  row_of l1 = inr r1 → row_of l2 = inr r2 → row_of l3 = inr r3 →
  row_event_id r3 = row_event_id r1 →
  row_event_id r2 ≠ row_event_id r1 →
  let stats := {| rows_in_file := 3; rows_loaded := 2; rows_deduped := 1 |} in
  let tbl : gmap N Row := <[row_event_id r2 := r2]> {[row_event_id r1 := r1]} in
  ingest_one_file att dsn path w
  = (moved path [l1; l2; l3] (committed att dsn path w db stats tbl),
     Done stats path)
  ∧ status (success_run att path stats) = py "success"
  ∧ tbl !! row_event_id r1 = Some r1
  ∧ tbl !! row_event_id r2 = Some r2
  ∧ size tbl = 2%nat.
Proof.
  intros Hf Hdb Hempty Hb1 Hb2 Hb3 Hr1 Hr2 Hr3 Hid Hne stats tbl.
  assert (Hll : load_lines [l1; l2; l3] 0 0 (raw_events db) = inr (3, 2, tbl)).
  { rewrite Hempty.
    rewrite (load_lines_row _ _ _ _ _ _ Hb1 Hr1), lookup_empty.
    rewrite (load_lines_row _ _ _ _ _ _ Hb2 Hr2), insert_empty.
    rewrite lookup_singleton_ne by done.
    rewrite (load_lines_row _ _ _ _ _ _ Hb3 Hr3), Hid.
    rewrite lookup_insert_ne by done. by rewrite lookup_singleton_eq. }
  split; [|split; [done|split; [|split]]].
  - unfold ingest_one_file.
    rewrite (with_connect_commit att dsn path w db _ 3 2 _ Hdb Hf Hll) by done.
    by rewrite (archive_file_staged path [l1; l2; l3]).
  - unfold tbl. rewrite lookup_insert_ne by done. apply lookup_singleton_eq.
  - apply lookup_insert_eq.
  - unfold tbl. rewrite map_size_insert_None, map_size_singleton; [done|].
    by rewrite lookup_singleton_ne.
Qed.

(** ** Commit, then archive *)

(** C10: the rows of a batch and its audit row become visible together or
    not at all.  Either the attempt raises and leaves the world it started
    in (no row, no audit row, the file staged), or the store behind [dsn]
    holds the table the loop built and the audit row of the attempt, written
    by the one commit, and the file is in the archive. *)
Theorem atomic_commit att dsn path w :
  (∃ e, ingest_one_file att dsn path w = (w, Raised e))
  ∨ (∃ db lines stats tbl,
       stores w !! dsn = Some db
       ∧ incoming w !! path = Some lines
       ∧ load_lines lines 0 0 (raw_events db)
         = inr (rows_in_file stats, rows_loaded stats, tbl)
       ∧ ingest_one_file att dsn path w
         = (moved path lines (committed att dsn path w db stats tbl),
            Done stats path)
       ∧ events_of dsn (ingest_one_file att dsn path w).1 = tbl
       ∧ runs_of dsn (ingest_one_file att dsn path w).1
         = runs_of dsn w ++ [success_run att path stats]).
Proof.
  destruct (ingest_one_file_cases att dsn path w)
    as [(e & _ & He)|(stats & w1 & lines & Hw & Hf & Hi)].
  - left. eauto.
  - right. apply with_connect_inr in Hw
      as (db & lines' & n & m & tbl & Hdb & Hf' & Hll & -> & _ & _ & _ & ->).
    rewrite Hf in Hf'. injection Hf' as <-.
    exists db, lines, {| rows_in_file := n; rows_loaded := m;
                         rows_deduped := n - m |}, tbl.
    rewrite Hi. repeat split; try done.
    + unfold events_of. simpl. by rewrite lookup_insert_eq.
    + unfold runs_of. simpl. by rewrite lookup_insert_eq, Hdb.
Qed.

(** C1: the file leaves the staging directory only in a world where the rows
    of the batch and its audit row are committed.  In the world the commit
    leaves, where a crash before the move stops the attempt, the batch is
    still staged and nothing is archived; a later attempt on it there
    completes with [rows_loaded = 0], every record counted as deduplicated,
    leaves the table of events as it was, adds its own audit row and moves
    the file. *)
Theorem commit_before_archive att dsn path w lines :
  incoming w !! path = Some lines →
  (∀ w' res,
     ingest_one_file att dsn path w = (w', res) →
     incoming w' !! path = None →
     ∃ stats w1,
       with_connect att dsn path w = inr (stats, w1)
       ∧ w' = moved path lines w1
       ∧ res = Done stats path
       ∧ runs_of dsn w' = runs_of dsn w ++ [success_run att path stats]
       ∧ Forall (λ line, blank line ∨ ∃ r, row_of line = inr r
                   ∧ is_Some (events_of dsn w' !! row_event_id r)) lines)
  ∧ (∀ stats w1,
       with_connect att dsn path w = inr (stats, w1) →
       incoming w1 !! path = Some lines
       ∧ archive w1 = archive w
       ∧ ∀ att2,
           let stats2 := {| rows_in_file := rows_in_file stats;
                            rows_loaded := 0;
                            rows_deduped := rows_in_file stats |} in
           ∃ w2,
             ingest_one_file att2 dsn path w1 = (w2, Done stats2 path)
             ∧ events_of dsn w2 = events_of dsn w1
             ∧ runs_of dsn w2 = runs_of dsn w1 ++ [success_run att2 path stats2]
             ∧ incoming w2 !! path = None
             ∧ archive w2 !! path = Some lines).
Proof.
  intros Hf. split.
  - intros w' res Hi Hgone.
    destruct (ingest_one_file_cases att dsn path w)
      as [(e & _ & He)|(stats & w1 & lines' & Hw & Hf' & Hi')].
    { rewrite He in Hi. injection Hi as <- <-. congruence. }
    rewrite Hf in Hf'. injection Hf' as <-.
    rewrite Hi' in Hi. injection Hi as <- <-.
    exists stats, w1. split; [done|]. split; [done|]. split; [done|].
    apply with_connect_inr in Hw
      as (db & lines' & n & m & tbl & Hdb & Hf' & Hll & -> & _ & _ & _ & ->).
    rewrite Hf in Hf'. injection Hf' as <-.
    split.
    + unfold runs_of. simpl. by rewrite lookup_insert_eq, Hdb.
    + unfold events_of. simpl. rewrite lookup_insert_eq. simpl.
      by eapply load_lines_rows.
  - intros stats w1 Hw.
    apply with_connect_inr in Hw
      as (db & lines' & n & m & tbl & Hdb & Hf' & Hll & -> & Hn & _ & _ & ->).
    rewrite Hf in Hf'. injection Hf' as <-.
    split; [done|]. split; [done|]. intros att2 stats2.
    set (stats := {| rows_in_file := n; rows_loaded := m; rows_deduped := n - m |}).
    set (w1 := committed att dsn path w db stats tbl).
    set (db1 := {| raw_events := tbl;
                   ingestion_runs := ingestion_runs db
                                     ++ [success_run att path stats] |}).
    assert (Hdb1 : stores w1 !! dsn = Some db1) by apply lookup_insert_eq.
    assert (Hll2 : load_lines lines 0 0 (raw_events db1) = inr (n, 0, tbl)).
    { simpl. rewrite (load_lines_present lines 0 0 tbl)
        by (by eapply load_lines_rows).
      apply load_lines_in_file in Hll. by rewrite Hll. }
    exists (moved path lines (committed att2 dsn path w1 db1 stats2 tbl)).
    split; [|split; [|split; [|split]]].
    + unfold ingest_one_file.
      rewrite (with_connect_commit att2 dsn path w1 db1 lines n 0 tbl Hdb1 Hf Hll2)
        by (rewrite ?Z.sub_0_r; done).
      rewrite Z.sub_0_r.
      by rewrite (archive_file_staged path lines).
    + unfold events_of. simpl. by rewrite !lookup_insert_eq.
    + unfold runs_of. simpl. by rewrite !lookup_insert_eq.
    + simpl. apply lookup_delete_eq.
    + simpl. apply lookup_insert_eq.
Qed.

(** ** Failures *)

Lemma failed_to_ingest_nonempty path e : failed_to_ingest path e ≠ [].
Proof. unfold failed_to_ingest. by vm_compute. Qed.

(** C4, as the code has it: a batch with a record that cannot be loaded
    among its lines commits nothing (no event, and no audit row either: the
    attempt is not recorded as a failed run) and stays staged; the world is
    the one the attempt started in, and the failure reaches the caller as a
    [RuntimeError] whose message, never empty, names the file and the
    cause. *)
Theorem invalid_record_aborts att dsn path w lines :
  incoming w !! path = Some lines →
  Exists invalid lines →
  ∃ e,
    ingest_one_file att dsn path w
    = (w, Raised (RuntimeError (failed_to_ingest path e) (Some e)))
    ∧ failed_to_ingest path e ≠ []
    ∧ events_of dsn (ingest_one_file att dsn path w).1 = events_of dsn w
    ∧ runs_of dsn (ingest_one_file att dsn path w).1 = runs_of dsn w
    ∧ incoming (ingest_one_file att dsn path w).1 !! path = Some lines.
Proof.
  intros Hf Hex.
  destruct (ingest_one_file_cases att dsn path w)
    as [(e & _ & He)|(stats & w1 & lines' & Hw & _)].
  - exists e. rewrite He. simpl.
    eauto using failed_to_ingest_nonempty.
  - apply with_connect_inr in Hw
      as (db & lines'' & n & m & tbl & _ & Hf' & Hll & _).
    rewrite Hf in Hf'. injection Hf' as <-.
    destruct (load_lines_invalid lines 0 0 (raw_events db) Hex) as [e He].
    congruence.
Qed.

(** The loop visits the files in order as long as the attempts succeed. *)
Lemma ingest_files_app att k dsn pre post w w1 calls :
  ingest_files att k dsn pre w = (w1, calls) →
  raised calls = None →
  ingest_files att k dsn (pre ++ post) w
  = let '(w2, calls2) := ingest_files att (k + length pre) dsn post w1 in
    (w2, calls ++ calls2).
Proof.
  revert k w calls. induction pre as [|p pre IH]; intros k w calls Hpre Hok.
  - simpl in *. injection Hpre as <- <-. rewrite Nat.add_0_r.
    by destruct (ingest_files att k dsn post w).
  - simpl in *.
    destruct (ingest_one_file (att k) dsn p w) as [w' [stats arch|e]].
    + destruct (ingest_files att (S k) dsn pre w') as [w'' calls'] eqn:Hrec.
      injection Hpre as <- <-.
      assert (Hok' : raised calls' = None).
      { unfold raised in *. destruct calls' as [|c calls']; [done|].
        by rewrite last_cons_cons in Hok. }
      rewrite (IH _ _ _ Hrec Hok').
      replace (S k + length pre)%nat with (k + S (length pre))%nat by lia.
      by destruct (ingest_files att (k + S (length pre)) dsn post w'').
    + injection Hpre as <- <-. discriminate.
Qed.

(** When no attempt raised, every file was attempted. *)
Lemma ingest_files_all att k dsn files w w1 calls :
  ingest_files att k dsn files w = (w1, calls) →
  raised calls = None →
  calls.*1 = files.
Proof.
  revert k w calls. induction files as [|p files IH]; intros k w calls Hi Hok.
  - simpl in Hi. by injection Hi as <- <-.
  - simpl in Hi.
    destruct (ingest_one_file (att k) dsn p w) as [w' [stats arch|e]].
    + destruct (ingest_files att (S k) dsn files w') as [w'' calls'] eqn:Hrec.
      injection Hi as <- <-. simpl. f_equal.
      apply (IH _ _ _ Hrec).
      unfold raised in *. destruct calls' as [|c calls']; [done|].
      by rewrite last_cons_cons in Hok.
    + injection Hi as <- <-. discriminate.
Qed.

Lemma staged_files_NoDup w : NoDup (staged_files w).
Proof.
  unfold staged_files. rewrite merge_sort_Permutation.
  apply NoDup_filter, NoDup_fst_map_to_list.
Qed.

(** C5, as the code has it: [main] attempts the staged batches in sorted
    order and stops at the first attempt that raises.  The batches before it
    were attempted, it is the last one attempted, none of the batches after
    it is, and the world is left as the failed attempt found it; [main] ends
    with that exception. *)
Theorem main_stops_at_first_failure pg_dsn att w dsn pre path post w1 calls e :
  get_dsn pg_dsn = inr dsn →
  staged_files w = pre ++ path :: post →
  ingest_files att 0 dsn pre w = (w1, calls) →
  raised calls = None →
  (ingest_one_file (att (length pre)) dsn path w1).2 = Raised e →
  main pg_dsn att w = (w1, calls ++ [(path, Raised e)], Some e)
  ∧ (calls ++ [(path, Raised e)]).*1 = pre ++ [path]
  ∧ ∀ p, p ∈ post → p ∉ (calls ++ [(path, Raised e)]).*1.
Proof.
  intros Hdsn Hfiles Hpre Hok Hfail.
  assert (Hone : ingest_one_file (att (length pre)) dsn path w1 = (w1, Raised e)).
  { destruct (ingest_one_file_cases (att (length pre)) dsn path w1)
      as [(e' & _ & He)|(stats & w2 & lines & _ & _ & Hi)];
      rewrite ?He, ?Hi in *; simpl in *; congruence. }
  assert (Hall : ingest_files att 0 dsn (pre ++ path :: post) w
                 = (w1, calls ++ [(path, Raised e)])).
  { rewrite (ingest_files_app _ _ _ _ _ _ _ _ Hpre Hok). simpl.
    by rewrite Hone. }
  assert (Hpaths : (calls ++ [(path, Raised e)]).*1 = pre ++ [path]).
  { rewrite fmap_app. simpl. by rewrite (ingest_files_all _ _ _ _ _ _ _ Hpre Hok). }
  split; [|split; [done|]].
  - unfold main. rewrite Hdsn, Hfiles.
    destruct (pre ++ path :: post) as [|f fs] eqn:Hnil;
      [by destruct pre|].
    rewrite Hall. unfold raised. by rewrite last_snoc.
  - intros p Hp Hin. rewrite Hpaths in Hin.
    pose proof (staged_files_NoDup w) as Hnd. rewrite Hfiles in Hnd.
    apply NoDup_app in Hnd as (_ & Hdisj & Hnd).
    apply NoDup_cons in Hnd as [Hpath _].
    apply elem_of_app in Hin as [Hin|Hin%list_elem_of_singleton].
    + apply (Hdisj p Hin). by right.
    + by subst.
Qed.

(** ** Missing fields *)

(** Two different literals are different keys. *)
Ltac py_ne := let E := fresh in intros E; vm_compute in E; discriminate E.

Lemma normalize_required d k :
  k ∈ required → normalize d !! k = Val <$> d !! k.
Proof.
  intros Hk. unfold normalize.
  rewrite !lookup_insert_ne, lookup_fmap; [done|..];
    unfold required in Hk; simpl in Hk;
    repeat (apply elem_of_cons in Hk as [->|Hk]; [py_ne|]);
    by apply elem_of_nil in Hk.
Qed.

Lemma required_placeholders k : k ∈ required → k ∈ INSERT_SQL.
Proof.
  unfold required, INSERT_SQL. simpl. intros Hk.
  repeat (apply elem_of_cons in Hk as [->|Hk]; [set_solver|]).
  by apply elem_of_nil in Hk.
Qed.

Lemma bind_params_missing obj k :
  k ∈ INSERT_SQL → obj !! k = None →
  ∃ missing, k ∈ missing ∧ bind_params obj = inl (ProgrammingError missing).
Proof.
  intros Hk Hnone. unfold bind_params.
  assert (Hin : k ∈ filter (λ k, obj !! k = None) INSERT_SQL)
    by by apply list_elem_of_filter.
  destruct (filter (λ k, obj !! k = None) INSERT_SQL) as [|k0 ks] eqn:Hfil.
  - by apply elem_of_nil in Hin.
  - eexists. split; [|done]. by rewrite merge_sort_Permutation.
Qed.

(** ** The archive *)


End Properties.

(** * The properties on the sample batches *)

Section Examples.
Import Ref Sample.

(** Closed facts are settled by evaluation. *)
Ltac run := vm_compute; reflexivity.
Ltac differ := let E := fresh in intros E; vm_compute in E; discriminate E.

Lemma load_jsonl_file_partition_witness :
  ∃ conn',
    load_jsonl_file fresh aba w_aba_blank
    = inr ({| rows_in_file := 3; rows_loaded := 2; rows_deduped := 1 |}, conn')
    ∧ 3 = 2 + 1 ∧ 0 ≤ 3 ∧ 0 ≤ 2 ∧ 0 ≤ 1 ∧ 2 ≤ 3.
Proof.
  destruct (load_jsonl_file fresh aba w_aba_blank) as [e|[stats conn']] eqn:Hl;
    [vm_compute in Hl; discriminate Hl|].
  exists conn'.
  pose proof (load_jsonl_file_partition _ _ _ _ _ Hl) as Hp.
  vm_compute in Hl. injection Hl as <- _. split; [reflexivity|exact Hp].
Defined.

Lemma load_jsonl_file_idempotent_witness :
  ∃ stats conn1,
    load_jsonl_file fresh aba w_aba = inr (stats, conn1)
    ∧ dom (raw_events (conn_db conn1)) ⊆ dom (raw_events (conn_db conn1))
    ∧ ∃ stats2,
        load_jsonl_file conn1 aba w_aba = inr (stats2, conn1)
        ∧ rows_loaded stats2 = 0
        ∧ rows_in_file stats2 = rows_in_file stats
        ∧ rows_deduped stats2 = rows_in_file stats.
Proof.
  destruct (load_jsonl_file fresh aba w_aba) as [e|[stats conn1]] eqn:Hl;
    [vm_compute in Hl; discriminate Hl|].
  exists stats, conn1. split; [reflexivity|].
  assert (Hdom : dom (raw_events (conn_db conn1)) ⊆ dom (raw_events (conn_db conn1)))
    by apply reflexivity.
  split; [exact Hdom|].
  exact (load_jsonl_file_idempotent _ _ _ _ _ conn1 Hl Hdom).
Defined.

Lemma blank_lines_skipped_witness :
  incoming w_blank !! good = Some [newline; spaces]
  ∧ stores w_blank !! dsn = Some empty_db
  ∧ Forall blank [newline; spaces]
  ∧ let zero := {| rows_in_file := 0; rows_loaded := 0; rows_deduped := 0 |} in
    ingest_one_file first_try dsn good w_blank
    = (moved good [newline; spaces]
         (committed first_try dsn good w_blank empty_db zero ∅),
       Done zero good).
Proof.
  assert (Hf : incoming w_blank !! good = Some [newline; spaces]) by run.
  assert (Hdb : stores w_blank !! dsn = Some empty_db) by run.
  assert (Hblank : Forall blank [newline; spaces]).
  { apply Forall_cons. split; [run|]. apply Forall_cons. split; [run|].
    apply Forall_nil_2. }
  split; [exact Hf|]. split; [exact Hdb|]. split; [exact Hblank|].
  exact (proj1 (proj2 (proj2
           (blank_lines_skipped first_try dsn good w_blank _ _ Hf Hdb)) Hblank)).
Defined.

Lemma first_seen_wins_witness :
  ∃ r1 r2 r3,
    row_of event_a = inr r1 ∧ row_of event_b = inr r2
    ∧ row_of event_a_late = inr r3
    ∧ r_event_id r3 = r_event_id r1 ∧ r_event_id r2 ≠ r_event_id r1
    ∧ r_payload r3 ≠ r_payload r1
    ∧ let stats := {| rows_in_file := 3; rows_loaded := 2; rows_deduped := 1 |} in
      (ingest_one_file first_try dsn aba w_aba).2 = Done stats aba
      ∧ events_of dsn (ingest_one_file first_try dsn aba w_aba).1
          !! r_event_id r1 = Some r1
      ∧ size (events_of dsn (ingest_one_file first_try dsn aba w_aba).1) = 2%nat.
Proof.
  destruct (row_of event_a) as [e|r1] eqn:H1;
    [vm_compute in H1; discriminate H1|].
  destruct (row_of event_b) as [e|r2] eqn:H2;
    [vm_compute in H2; discriminate H2|].
  destruct (row_of event_a_late) as [e|r3] eqn:H3;
    [vm_compute in H3; discriminate H3|].
  exists r1, r2, r3.
  assert (Hid : row_event_id r3 = row_event_id r1).
  { vm_compute in H1, H3. injection H1 as <-. injection H3 as <-. reflexivity. }
  assert (Hne : row_event_id r2 ≠ row_event_id r1).
  { vm_compute in H1, H2. injection H1 as <-. injection H2 as <-. differ. }
  assert (Hpay : r_payload r3 ≠ r_payload r1).
  { vm_compute in H1, H3. injection H1 as <-. injection H3 as <-. differ. }
  assert (Hb1 : ¬ blank event_a) by differ.
  assert (Hb2 : ¬ blank event_b) by differ.
  assert (Hb3 : ¬ blank event_a_late) by differ.
  assert (Hf : incoming w_aba !! aba = Some [event_a; event_b; event_a_late])
    by run.
  assert (Hdb : stores w_aba !! dsn = Some empty_db) by run.
  destruct (first_seen_wins first_try dsn aba w_aba empty_db
              event_a event_b event_a_late r1 r2 r3
              Hf Hdb eq_refl Hb1 Hb2 Hb3 H1 H2 H3 Hid Hne)
    as (Hi & _ & Hk1 & _ & Hsz).
  split; [reflexivity|]. split; [reflexivity|]. split; [reflexivity|].
  split; [exact Hid|]. split; [exact Hne|]. split; [exact Hpay|].
  rewrite Hi. cbn [fst snd]. rewrite events_of_moved, events_of_committed.
  split; [reflexivity|]. split; [exact Hk1|exact Hsz].
Defined.

Lemma commit_before_archive_witness :
  incoming w_aba !! aba = Some [event_a; event_b; event_a_late]
  ∧ ∃ stats w1 w2,
      with_connect first_try dsn aba w_aba = inr (stats, w1)
      ∧ rows_loaded stats = 2
      ∧ incoming w1 !! aba = Some [event_a; event_b; event_a_late]
      ∧ archive w1 = archive w_aba
      ∧ ingest_one_file second_try dsn aba w1
        = (w2, Done {| rows_in_file := 3; rows_loaded := 0; rows_deduped := 3 |}
                 aba)
      ∧ events_of dsn w2 = events_of dsn w1
      ∧ size (events_of dsn w2) = 2%nat
      ∧ length (runs_of dsn w2) = 2%nat
      ∧ incoming w2 !! aba = None
      ∧ archive w2 !! aba = Some [event_a; event_b; event_a_late].
Proof.
  assert (Hf : incoming w_aba !! aba = Some [event_a; event_b; event_a_late])
    by run.
  split; [exact Hf|].
  assert (Hrun : match with_connect first_try dsn aba w_aba with
                 | inr (stats, w1) =>
                     stats = {| rows_in_file := 3; rows_loaded := 2;
                                rows_deduped := 1 |}
                     ∧ size (events_of dsn w1) = 2%nat
                     ∧ length (runs_of dsn w1) = 1%nat
                 | inl _ => False
                 end).
  { vm_compute. repeat split. }
  destruct (with_connect first_try dsn aba w_aba) as [e|[stats w1]] eqn:Hw;
    [contradiction|].
  destruct Hrun as (Hstats & Hsize & Hlen).
  destruct (proj2 (commit_before_archive first_try dsn aba w_aba _ Hf) stats w1 Hw)
    as (Hstaged & Harch & Hagain).
  destruct (Hagain second_try) as (w2 & Hi & Hev & Hruns & Hgone & Hdone).
  exists stats, w1, w2.
  split; [reflexivity|].
  rewrite Hstats in Hi.
  split; [by rewrite Hstats|]. split; [exact Hstaged|]. split; [exact Harch|].
  split; [exact Hi|]. split; [exact Hev|].
  split; [by rewrite Hev|].
  split; [rewrite Hruns, length_app, Hlen; reflexivity|].
  split; [exact Hgone|exact Hdone].
Defined.

Lemma invalid_record_aborts_witness :
  incoming w_bad !! bad = Some [event_a; unparsable]
  ∧ Exists invalid [event_a; unparsable]
  ∧ ∃ e,
      ingest_one_file first_try dsn bad w_bad
      = (w_bad, Raised (RuntimeError (failed_to_ingest bad e) (Some e)))
      ∧ failed_to_ingest bad e ≠ []
      ∧ events_of dsn (ingest_one_file first_try dsn bad w_bad).1
        = events_of dsn w_bad
      ∧ runs_of dsn (ingest_one_file first_try dsn bad w_bad).1 = runs_of dsn w_bad
      ∧ incoming (ingest_one_file first_try dsn bad w_bad).1 !! bad
        = Some [event_a; unparsable].
Proof.
  assert (Hf : incoming w_bad !! bad = Some [event_a; unparsable]) by run.
  assert (Hex : Exists invalid [event_a; unparsable]).
  { apply Exists_cons_tl, Exists_cons_hd. split; [differ|].
    exists (JSONDecodeError (strip unparsable)). run. }
  split; [exact Hf|]. split; [exact Hex|].
  exact (invalid_record_aborts first_try dsn bad w_bad _ Hf Hex).
Defined.

(** C4, as the spec has it, fails on the batch whose second record is cut
    short: the attempt leaves no audit row with the status [failed]. *)
Lemma failed_attempt_not_recorded :
  Exists invalid [event_a; unparsable]
  ∧ incoming w_bad !! bad = Some [event_a; unparsable]
  ∧ runs_of dsn (ingest_one_file first_try dsn bad w_bad).1 = []
  ∧ ¬ failed_run_recorded dsn bad w_bad
        (ingest_one_file first_try dsn bad w_bad).1.
Proof.
  assert (Hruns : runs_of dsn (ingest_one_file first_try dsn bad w_bad).1 = [])
    by run.
  split; [|split; [run|split; [exact Hruns|]]].
  - apply Exists_cons_tl, Exists_cons_hd. split; [differ|].
    exists (JSONDecodeError (strip unparsable)). run.
  - intros (run & msg & Hrec & _). rewrite Hruns in Hrec.
    vm_compute in Hrec. discriminate Hrec.
Qed.

Lemma main_stops_at_first_failure_witness :
  get_dsn (Some dsn) = inr dsn
  ∧ staged_files w_three = [aba] ++ bad :: [good]
  ∧ ∃ w1 calls e,
      ingest_files tries 0 dsn [aba] w_three = (w1, calls)
      ∧ raised calls = None
      ∧ (ingest_one_file (tries (length [aba])) dsn bad w1).2 = Raised e
      ∧ main (Some dsn) tries w_three = (w1, calls ++ [(bad, Raised e)], Some e)
      ∧ (calls ++ [(bad, Raised e)]).*1 = [aba] ++ [bad]
      ∧ good ∉ (calls ++ [(bad, Raised e)]).*1.
Proof.
  assert (Hdsn : get_dsn (Some dsn) = inr dsn) by run.
  assert (Hfiles : staged_files w_three = [aba] ++ bad :: [good]) by run.
  split; [exact Hdsn|]. split; [exact Hfiles|].
  assert (Hrun : let '(w1, calls) := ingest_files tries 0 dsn [aba] w_three in
                 raised calls = None
                 ∧ match ingest_one_file (tries (length [aba])) dsn bad w1 with
                   | (_, Raised _) => True
                   | _ => False
                   end).
  { vm_compute. split; [reflexivity|exact I]. }
  destruct (ingest_files tries 0 dsn [aba] w_three) as [w1 calls] eqn:Hpre.
  destruct Hrun as [Hok Hraised].
  destruct (ingest_one_file (tries (length [aba])) dsn bad w1)
    as [w1' [stats arch|e]] eqn:Hone; [contradiction|].
  assert (Hfail : (ingest_one_file (tries (length [aba])) dsn bad w1).2 = Raised e)
    by (rewrite Hone; reflexivity).
  destruct (main_stops_at_first_failure (Some dsn) tries w_three dsn [aba] bad
              [good] w1 calls e Hdsn Hfiles Hpre Hok Hfail)
    as (Hmain & Hpaths & Hpost).
  exists w1, calls, e.
  split; [reflexivity|]. split; [exact Hok|]. split; [exact Hfail|].
  split; [exact Hmain|]. split; [exact Hpaths|].
  apply Hpost, list_elem_of_singleton. reflexivity.
Defined.

(** C5, as the spec has it, fails on three staged batches of which the
    second is bad: the third, discovered with the others, is not attempted,
    though an attempt on it alone succeeds. *)
Lemma later_batch_not_attempted :
  staged_files w_three = [aba; bad; good]
  ∧ (main (Some dsn) tries w_three).1.2.*1 = [aba; bad]
  ∧ (∃ stats, (ingest_one_file (tries 2) dsn good w_three).2 = Done stats good)
  ∧ ¬ (∀ p, p ∈ staged_files w_three →
            p ∈ (main (Some dsn) tries w_three).1.2.*1).
Proof.
  assert (Hfiles : staged_files w_three = [aba; bad; good]) by run.
  assert (Hcalls : (main (Some dsn) tries w_three).1.2.*1 = [aba; bad]) by run.
  split; [exact Hfiles|]. split; [exact Hcalls|]. split.
  - exists {| rows_in_file := 1; rows_loaded := 1; rows_deduped := 0 |}. run.
  - intros Hall. specialize (Hall good). rewrite Hfiles, Hcalls in Hall.
    assert (Hin : good ∈ [aba; bad]).
    { apply Hall. do 2 apply list_elem_of_further. apply list_elem_of_here. }
    apply elem_of_cons in Hin as [E|Hin]; [vm_compute in E; discriminate E|].
    apply list_elem_of_singleton in Hin. vm_compute in Hin. discriminate Hin.
Qed.



End Examples.

(** * Further properties of the loader *)

Section LoaderProperties.
Context `{Libs}.
Implicit Types (line : pystr) (lines : list pystr) (tbl : gmap N Row).
Implicit Types (w : World Row) (conn : Connection Row) (stats : FileStats).

(** ** Which lines are skipped *)

Lemma lstrip_nil (s : pystr) :
  lstrip s = [] ↔ Forall (λ c, isspace c = true) s.
Proof.
  induction s as [|c s IH]; simpl.
  - split; [constructor|done].
  - destruct (isspace c) eqn:Hc.
    + rewrite IH. split; [by constructor|by inversion 1].
    + split; [done|]. inversion 1; congruence.
Qed.

Lemma lstrip_snoc_nonspace (s : pystr) c :
  isspace c = false → lstrip (s ++ [c]) ≠ [].
Proof.
  intros Hc. induction s as [|d s IH]; simpl.
  - by rewrite Hc.
  - by destruct (isspace d).
Qed.

Lemma lstrip_head (s : pystr) c r : lstrip s = c :: r → isspace c = false.
Proof.
  induction s as [|d s IH]; simpl; [done|].
  destruct (isspace d) eqn:Hd; [done|]. by intros [= <- _].
Qed.

(** X1: the loop skips a line exactly when every character of it is
    whitespace in the sense of [str.strip]. *)
Theorem blank_iff_whitespace line :
  blank line ↔ Forall (λ c, isspace c = true) line.
Proof.
  unfold blank, strip, rstrip. rewrite <- lstrip_nil. split.
  - intros Hs. destruct (lstrip line) as [|c r] eqn:Hl; [done|].
    exfalso. apply lstrip_head in Hl.
    assert (Hr : lstrip (reverse (c :: r)) = []).
    { apply (f_equal reverse) in Hs. by rewrite reverse_involutive in Hs. }
    rewrite reverse_cons in Hr. by apply lstrip_snoc_nonspace in Hr.
  - by intros ->.
Qed.

(** ** What a load adds to the table *)

Lemma load_lines_size lines n m tbl n' m' tbl' :
  load_lines lines n m tbl = inr (n', m', tbl') →
  Z.of_nat (size tbl') = Z.of_nat (size tbl) + (m' - m).
Proof.
  revert n m tbl. induction lines as [|line lines IH]; intros n m tbl Hl.
  - simpl in Hl. injection Hl as -> -> ->. lia.
  - destruct (line_cases line) as [Hb|[[Hb [e He]]|[Hb [r Hr]]]].
    + rewrite load_lines_blank in Hl by done. by apply IH in Hl.
    + by rewrite (load_lines_raise _ _ _ _ _ _ Hb He) in Hl.
    + rewrite (load_lines_row _ _ _ _ _ _ Hb Hr) in Hl.
      destruct (tbl !! row_event_id r) eqn:Hk; apply IH in Hl; [lia|].
      rewrite map_size_insert_None in Hl by done. lia.
Qed.

Lemma load_lines_dom lines n m tbl n' m' tbl' :
  load_lines lines n m tbl = inr (n', m', tbl') →
  dom tbl' = dom tbl ∪ list_to_set (line_ids lines).
Proof.
  revert n m tbl. induction lines as [|line lines IH]; intros n m tbl Hl.
  - simpl in Hl. injection Hl as -> -> ->. set_solver.
  - unfold line_ids. rewrite bind_cons. fold (line_ids lines).
    destruct (line_cases line) as [Hb|[[Hb [e He]]|[Hb [r Hr]]]].
    + rewrite load_lines_blank in Hl by done. apply IH in Hl.
      rewrite decide_True by done. by rewrite Hl.
    + by rewrite (load_lines_raise _ _ _ _ _ _ Hb He) in Hl.
    + rewrite (load_lines_row _ _ _ _ _ _ Hb Hr) in Hl.
      rewrite decide_False, Hr by done.
      destruct (tbl !! row_event_id r) eqn:Hk; apply IH in Hl; rewrite Hl.
      * apply (elem_of_dom_2 (D:=gset N)) in Hk. set_solver.
      * rewrite dom_insert_L. set_solver.
Qed.

(** X2: [rows_loaded] counts exactly the events a successful attempt adds:
    the table of the store grows by [rows_loaded] rows, and the ids it holds
    afterwards are the ids it held plus the ids of the records of the
    batch. *)
Theorem rows_loaded_is_growth att dsn path w w' stats archived lines :
  incoming w !! path = Some lines →
  ingest_one_file att dsn path w = (w', Done stats archived) →
  Z.of_nat (size (events_of dsn w'))
  = Z.of_nat (size (events_of dsn w)) + rows_loaded stats
  ∧ dom (events_of dsn w') = dom (events_of dsn w) ∪ list_to_set (line_ids lines).
Proof.
  intros Hf Hi.
  destruct (ingest_one_file_cases att dsn path w)
    as [(e & _ & He)|(stats' & w1 & lines' & Hw & Hf' & Hi')]; [congruence|].
  rewrite Hi' in Hi. injection Hi as <- <- <-.
  rewrite Hf in Hf'. injection Hf' as <-.
  apply with_connect_inr in Hw
    as (db & lines' & n & m & tbl & Hdb & Hf' & Hll & -> & _ & _ & _ & ->).
  rewrite Hf in Hf'. injection Hf' as <-.
  rewrite events_of_moved, events_of_committed.
  unfold events_of. rewrite Hdb. simpl. split.
  - apply load_lines_size in Hll. lia.
  - by eapply load_lines_dom.
Qed.

(** ** Splitting and reordering a batch *)

Lemma load_lines_app l1 l2 n m tbl :
  load_lines (l1 ++ l2) n m tbl
  = '(n1, m1, tbl1) ← load_lines l1 n m tbl; load_lines l2 n1 m1 tbl1.
Proof.
  revert n m tbl. induction l1 as [|line l1 IH]; intros n m tbl; [done|].
  rewrite <- app_comm_cons.
  destruct (line_cases line) as [Hb|[[Hb [e He]]|[Hb [r Hr]]]].
  - by rewrite !load_lines_blank.
  - by rewrite !(load_lines_raise _ _ _ _ _ _ Hb He).
  - rewrite !(load_lines_row _ _ _ _ _ _ Hb Hr).
    by destruct (tbl !! row_event_id r).
Qed.

(** The counts of a load started at [n], [m] are those of the load started
    at zero, shifted. *)
Lemma load_lines_shift lines n m tbl :
  load_lines lines n m tbl
  = '(n', m', tbl') ← load_lines lines 0 0 tbl; mret (n + n', m + m', tbl').
Proof.
  revert n m tbl. induction lines as [|line lines IH]; intros n m tbl.
  - simpl. by rewrite !Z.add_0_r.
  - destruct (line_cases line) as [Hb|[[Hb [e He]]|[Hb [r Hr]]]].
    + by rewrite !load_lines_blank.
    + by rewrite !(load_lines_raise _ _ _ _ _ _ Hb He).
    + rewrite !(load_lines_row _ _ _ _ _ _ Hb Hr).
      destruct (tbl !! row_event_id r).
      * rewrite (IH (n + 1) (m + 0)), (IH (0 + 1) (0 + 0)).
        destruct (load_lines lines 0 0 tbl) as [e|[[n' m'] tbl']]; [done|].
        simpl. do 3 f_equal; lia.
      * rewrite (IH (n + 1) (m + 1)), (IH (0 + 1) (0 + 1)).
        destruct (load_lines lines 0 0 _) as [e|[[n' m'] tbl']]; [done|].
        simpl. do 3 f_equal; lia.
Qed.

(** X3: loading a file through the connection that has just loaded another
    one gives what loading the two files' lines as one file gives: the same
    view of the store, and counts that are the sums of the two loads'. *)
Theorem load_jsonl_file_split conn pa pb pab w la lb sa sb conn1 conn2 :
  incoming w !! pa = Some la →
  incoming w !! pb = Some lb →
  incoming w !! pab = Some (la ++ lb) →
  load_jsonl_file conn pa w = inr (sa, conn1) →
  load_jsonl_file conn1 pb w = inr (sb, conn2) →
  load_jsonl_file conn pab w
  = inr ({| rows_in_file := rows_in_file sa + rows_in_file sb;
            rows_loaded := rows_loaded sa + rows_loaded sb;
            rows_deduped := rows_deduped sa + rows_deduped sb |}, conn2).
Proof.
  intros Ha Hb Hab Hla Hlb.
  apply load_jsonl_file_inr in Hla as (la' & na & ma & ta & Ha' & Hlla & -> & ->).
  apply load_jsonl_file_inr in Hlb as (lb' & nb & mb & tb & Hb' & Hllb & -> & ->).
  rewrite Ha in Ha'. injection Ha' as <-. rewrite Hb in Hb'. injection Hb' as <-.
  simpl in *. unfold load_jsonl_file. rewrite Hab, load_lines_app, Hlla. simpl.
  rewrite load_lines_shift, Hllb. simpl.
  do 2 f_equal. f_equal; lia.
Qed.

(** X4: the exception of a load is the one of the first record that cannot
    be loaded; the lines after that record play no part. *)
Theorem first_invalid_record_raises pre line post n m tbl n' m' tbl' e :
  load_lines pre n m tbl = inr (n', m', tbl') →
  ¬ blank line →
  row_of line = inl e →
  load_lines (pre ++ line :: post) n m tbl = inl e.
Proof.
  intros Hpre Hb He. rewrite load_lines_app, Hpre. simpl.
  by apply load_lines_raise.
Qed.

Lemma load_lines_returns lines n m tbl :
  Forall (λ line, blank line ∨ ∃ r, row_of line = inr r) lines →
  ∃ n' m' tbl', load_lines lines n m tbl = inr (n', m', tbl').
Proof.
  intros Hall. revert n m tbl.
  induction Hall as [|line lines Hline _ IH]; intros n m tbl.
  - by exists n, m, tbl.
  - destruct Hline as [Hb|[r Hr]].
    + rewrite load_lines_blank by done. apply IH.
    + destruct (decide (blank line)) as [Hb|Hb].
      * rewrite load_lines_blank by done. apply IH.
      * rewrite (load_lines_row _ _ _ _ _ _ Hb Hr).
        destruct (tbl !! row_event_id r); apply IH.
Qed.

Lemma load_lines_all_valid lines n m tbl n' m' tbl' :
  load_lines lines n m tbl = inr (n', m', tbl') →
  Forall (λ line, blank line ∨ ∃ r, row_of line = inr r) lines.
Proof.
  intros Hl. apply load_lines_rows in Hl.
  eapply Forall_impl; [exact Hl|]. intros line [Hb|(r & Hr & _)]; eauto.
Qed.

(** X5: the order of the records of a batch is immaterial to the counts and
    to the set of event ids stored: a load of the same lines in another
    order returns too, with the same three counts and a table over the same
    ids. *)
Theorem load_lines_reordered lines lines' n m tbl n' m' tbl' :
  load_lines lines n m tbl = inr (n', m', tbl') →
  lines ≡ₚ lines' →
  ∃ tbl'',
    load_lines lines' n m tbl = inr (n', m', tbl'')
    ∧ dom tbl'' = dom tbl'.
Proof.
  intros Hl Hperm.
  pose proof (load_lines_all_valid _ _ _ _ _ _ _ Hl) as Hall.
  rewrite Hperm in Hall.
  destruct (load_lines_returns lines' n m tbl Hall) as (n2 & m2 & tbl2 & Hl2).
  assert (Hdom : dom tbl2 = dom tbl').
  { rewrite (load_lines_dom _ _ _ _ _ _ _ Hl), (load_lines_dom _ _ _ _ _ _ _ Hl2).
    f_equal. unfold line_ids. apply set_eq. intros i.
    rewrite !elem_of_list_to_set. by rewrite Hperm. }
  assert (Hn : n2 = n').
  { rewrite (load_lines_in_file _ _ _ _ _ _ _ Hl),
      (load_lines_in_file _ _ _ _ _ _ _ Hl2).
    by rewrite Hperm. }
  assert (Hm : m2 = m').
  { apply load_lines_size in Hl, Hl2.
    assert (size tbl2 = size tbl')
      by (rewrite <- !size_dom; by rewrite Hdom).
    lia. }
  subst. by exists tbl2.
Qed.

(** ** How the record is bound *)

(** Two different literals are different keys. *)
Ltac key_ne := let E := fresh in intros E; vm_compute in E; discriminate E.

Lemma filter_ext_in {A} (P Q : A → Prop) `{∀ x, Decision (P x)}
    `{∀ x, Decision (Q x)} (l : list A) :
  (∀ x, x ∈ l → P x ↔ Q x) → filter P l = filter Q l.
Proof.
  induction l as [|x l IH]; intros Hext; [done|].
  rewrite !filter_cons.
  rewrite IH by (intros y Hy; apply Hext; by right).
  destruct (decide (P x)) as [HP|HP], (decide (Q x)) as [HQ|HQ]; try done;
    exfalso; apply (Hext x (list_elem_of_here _ _)) in HP || apply HP;
    by try apply (Hext x (list_elem_of_here _ _)).
Qed.

Lemma filter_none {A} (P : A → Prop) `{∀ x, Decision (P x)} (l : list A) :
  (∀ x, x ∈ l → ¬ P x) → filter P l = [].
Proof.
  induction l as [|x l IH]; intros Hno; [done|].
  rewrite filter_cons_False by (apply Hno; by left).
  apply IH. intros y Hy. apply Hno. by right.
Qed.

Lemma bind_params_ext (o1 o2 : gmap pystr pyval) :
  (∀ k, k ∈ INSERT_SQL → o1 !! k = o2 !! k) →
  bind_params o1 = bind_params o2.
Proof.
  intros Hext. unfold bind_params, dict_get.
  assert (Hfil : filter (λ k, o1 !! k = None) INSERT_SQL
                 = filter (λ k, o2 !! k = None) INSERT_SQL).
  { apply filter_ext_in. intros k Hk. by rewrite (Hext k Hk). }
  rewrite Hfil.
  rewrite !(Hext (py _)) by (unfold INSERT_SQL; simpl; set_solver).
  done.
Qed.

Lemma dict_get_insert_ne (m : gmap pystr pyval) i k x :
  i ≠ k → dict_get (<[i := x]> m) k = dict_get m k.
Proof. intros Hne. unfold dict_get. by rewrite lookup_insert_ne. Qed.

Lemma dict_get_fmap (d : gmap pystr json) k :
  dict_get (Val <$> d) k = Val (default JNull (d !! k)).
Proof. unfold dict_get. rewrite lookup_fmap. by destruct (d !! k). Qed.

(** What [normalize] leaves under the four keys it writes. *)
Lemma normalize_payload (d : gmap pystr json) :
  normalize d !! py "payload"
  = Some (Dumps (match d !! py "payload" with
                 | Some v => if truthy v then v else JObj []
                 | None => JObj []
                 end)).
Proof.
  unfold normalize.
  do 3 (etrans; [apply lookup_insert_ne; key_ne|]).
  rewrite lookup_insert_eq. by destruct (d !! py "payload").
Qed.

Lemma normalize_product_id (d : gmap pystr json) :
  normalize d !! py "product_id"
  = Some (Val (default JNull (d !! py "product_id"))).
Proof.
  unfold normalize.
  do 2 (etrans; [apply lookup_insert_ne; key_ne|]).
  rewrite lookup_insert_eq.
  rewrite dict_get_insert_ne by key_ne. by rewrite dict_get_fmap.
Qed.

Lemma normalize_price (d : gmap pystr json) :
  normalize d !! py "price" = Some (Val (default JNull (d !! py "price"))).
Proof.
  unfold normalize.
  etrans; [apply lookup_insert_ne; key_ne|].
  rewrite lookup_insert_eq.
  rewrite !dict_get_insert_ne by key_ne. by rewrite dict_get_fmap.
Qed.

Lemma normalize_device (d : gmap pystr json) :
  normalize d !! py "device" = Some (Val (default JNull (d !! py "device"))).
Proof.
  unfold normalize. rewrite lookup_insert_eq.
  rewrite !dict_get_insert_ne by key_ne. by rewrite dict_get_fmap.
Qed.

Lemma normalize_filled (d : gmap pystr json) k :
  k ∈ py <$> ["product_id"; "price"; "device"; "payload"] →
  is_Some (normalize d !! k).
Proof.
  intros Hk. simpl in Hk.
  repeat (apply elem_of_cons in Hk as [->|Hk];
          [rewrite ?normalize_product_id, ?normalize_price, ?normalize_device,
             ?normalize_payload; eauto|]).
  by apply elem_of_nil in Hk.
Qed.

(** X6: a record can be bound to the statement exactly when it carries the
    six fields [event_id], [event_time], [ingestion_time], [event_name],
    [user_id] and [session_id]; none of the four others is ever missing
    once the record is normalised. *)
Theorem bind_params_iff_required (d : gmap pystr json) :
  (∃ p, bind_params (normalize d) = inr p)
  ↔ Forall (λ k, is_Some (d !! k)) required.
Proof.
  split.
  - intros [p Hp]. apply Forall_forall. intros k Hk.
    destruct (d !! k) eqn:Hd; [eauto|].
    destruct (bind_params_missing (normalize d) k) as (missing & _ & Hm).
    { by apply required_placeholders. }
    { by rewrite normalize_required, Hd. }
    congruence.
  - intros Hall. unfold bind_params.
    assert (Hnone : filter (λ k, normalize d !! k = None) INSERT_SQL = []).
    { apply filter_none. intros k Hk Hn.
      assert (Hcase : k ∈ required
                      ∨ k ∈ py <$> ["product_id"; "price"; "device"; "payload"]).
      { unfold INSERT_SQL, required in *. simpl in *. set_solver. }
      destruct Hcase as [Hr|Hf].
      - rewrite normalize_required in Hn by done.
        rewrite Forall_forall in Hall. destruct (Hall k Hr) as [v Hv].
        by rewrite Hv in Hn.
      - destruct (normalize_filled d k Hf) as [v Hv]. congruence. }
    rewrite Hnone. eauto.
Qed.

(** X7: a field of the record that is no placeholder of the statement is
    ignored: with or without it, the same values are bound. *)
Theorem unknown_field_ignored (d : gmap pystr json) k v :
  k ∉ INSERT_SQL →
  bind_params (normalize (<[k := v]> d)) = bind_params (normalize d).
Proof.
  intros Hk. apply bind_params_ext. intros i Hi.
  assert (Hne : k ≠ i) by (by intros ->).
  assert (Hcase : i ∈ required ∨ i = py "product_id" ∨ i = py "price"
                  ∨ i = py "device" ∨ i = py "payload").
  { unfold INSERT_SQL, required in *. simpl in *. set_solver. }
  destruct Hcase as [Hr|[->|[->|[->| ->]]]].
  - by rewrite !normalize_required, lookup_insert_ne.
  - by rewrite !normalize_product_id, lookup_insert_ne.
  - by rewrite !normalize_price, lookup_insert_ne.
  - by rewrite !normalize_device, lookup_insert_ne.
  - by rewrite !normalize_payload, lookup_insert_ne.
Qed.

(** X8: what is bound for the fields the loader fills in itself: an absent
    [product_id], [price] or [device] is bound as [None], a present one as
    it is; the payload is bound as the JSON text of the record's payload,
    and as the text of the empty object when the record has none or has one
    that is false in Python ([null], [false], zero, an empty string, list or
    object). *)
Theorem optional_fields_bound (d : gmap pystr json) p :
  bind_params (normalize d) = inr p →
  p_product_id p = Val (default JNull (d !! py "product_id"))
  ∧ p_price p = Val (default JNull (d !! py "price"))
  ∧ p_device p = Val (default JNull (d !! py "device"))
  ∧ p_payload p
    = Dumps (match d !! py "payload" with
             | Some v => if truthy v then v else JObj []
             | None => JObj []
             end).
Proof.
  unfold bind_params.
  destruct (filter _ INSERT_SQL); [|discriminate]. intros [= <-].
  cbn [p_product_id p_price p_device p_payload]. unfold dict_get.
  by rewrite normalize_product_id, normalize_price, normalize_device,
    normalize_payload.
Qed.

(** ** The checks the loader makes *)

Lemma dict_get_required (d : gmap pystr json) k :
  k ∈ required → dict_get (normalize d) k = Val (default JNull (d !! k)).
Proof.
  intros Hk. unfold dict_get. rewrite normalize_required by done.
  by destruct (d !! k).
Qed.

(** The values bound for a record that carries the six fields. *)
Lemma bind_params_bound (d : gmap pystr json) :
  Forall (λ k, is_Some (d !! k)) required →
  bind_params (normalize d)
  = inr {| p_event_id := Val (default JNull (d !! py "event_id"));
           p_event_time := Val (default JNull (d !! py "event_time"));
           p_ingestion_time := Val (default JNull (d !! py "ingestion_time"));
           p_event_name := Val (default JNull (d !! py "event_name"));
           p_user_id := Val (default JNull (d !! py "user_id"));
           p_session_id := Val (default JNull (d !! py "session_id"));
           p_product_id := Val (default JNull (d !! py "product_id"));
           p_price := Val (default JNull (d !! py "price"));
           p_device := Val (default JNull (d !! py "device"));
           p_payload := Dumps (match d !! py "payload" with
                               | Some v => if truthy v then v else JObj []
                               | None => JObj []
                               end) |}.
Proof.
  intros Hall. unfold bind_params.
  assert (Hnone : filter (λ k, normalize d !! k = None) INSERT_SQL = []).
  { apply filter_none. intros k Hk Hn.
    assert (Hcase : k ∈ required
                    ∨ k ∈ py <$> ["product_id"; "price"; "device"; "payload"]).
    { unfold INSERT_SQL, required in *. simpl in *. set_solver. }
    destruct Hcase as [Hr|Hf].
    - rewrite normalize_required in Hn by done.
      rewrite Forall_forall in Hall. destruct (Hall k Hr) as [v Hv].
      by rewrite Hv in Hn.
    - destruct (normalize_filled d k Hf) as [v Hv]. congruence. }
  rewrite Hnone.
  rewrite !dict_get_required
    by (unfold required; cbn [fmap list_fmap]; set_solver).
  unfold dict_get.
  by rewrite normalize_product_id, normalize_price, normalize_device,
    normalize_payload.
Qed.

(** A record that is bound and that the store takes is loaded. *)
Lemma accepted_record_loaded line v d p r rest n m tbl :
  ¬ blank line →
  json_loads (strip line) = Some v →
  as_dict v = Some d →
  bind_params (normalize d) = inr p →
  insert_values p = Some r →
  tbl !! row_event_id r = None →
  load_lines (line :: rest) n m tbl
  = load_lines rest (n + 1) (m + 1) (<[row_event_id r := r]> tbl).
Proof.
  intros Hb Hv Hd Hp Hr Hnew.
  rewrite (load_lines_row line rest n m tbl r); [by rewrite Hnew|done|].
  unfold row_of, prepare. rewrite Hv, Hd. simpl. rewrite Hp. simpl.
  by rewrite Hr.
Qed.

(** C6, as the code has it: the loader fails a record itself only for one of
    [event_id], [event_time], [ingestion_time], [event_name], [user_id],
    [session_id] that is missing: the load raises at that record, naming
    the field among the missing query parameters, and the record is not
    inserted, whatever the store.  It checks nothing else.  A record that
    carries the six fields is bound, each of its values as it is, whatever
    its type, and a missing [device] as null, exactly as if the record
    carried [device] set to null; the statement is executed, and a record
    that the store takes is loaded. *)
Theorem missing_field_raises line v d :
  ¬ blank line →
  json_loads (strip line) = Some v →
  as_dict v = Some d →
  (∀ k, k ∈ required → d !! k = None →
     ∃ missing, k ∈ missing
       ∧ ∀ rest n m tbl,
           load_lines (line :: rest) n m tbl = inl (ProgrammingError missing))
  ∧ (Forall (λ k, is_Some (d !! k)) required →
     ∃ p, bind_params (normalize d) = inr p
       ∧ p_event_id p = Val (default JNull (d !! py "event_id"))
       ∧ p_event_time p = Val (default JNull (d !! py "event_time"))
       ∧ p_ingestion_time p = Val (default JNull (d !! py "ingestion_time"))
       ∧ p_event_name p = Val (default JNull (d !! py "event_name"))
       ∧ p_user_id p = Val (default JNull (d !! py "user_id"))
       ∧ p_session_id p = Val (default JNull (d !! py "session_id"))
       ∧ p_device p = Val (default JNull (d !! py "device"))
       ∧ ∀ r rest n m tbl,
           insert_values p = Some r → tbl !! row_event_id r = None →
           load_lines (line :: rest) n m tbl
           = load_lines rest (n + 1) (m + 1) (<[row_event_id r := r]> tbl))
  ∧ (d !! py "device" = None →
     normalize d = normalize (<[py "device" := JNull]> d)).
Proof.
  intros Hb Hv Hd.
  assert (Hprep : prepare (strip line) = inr (normalize d)).
  { unfold prepare. by rewrite Hv, Hd. }
  split; [|split].
  - intros k Hk Hnone.
    destruct (bind_params_missing (normalize d) k) as (missing & Hin & Hbind).
    { by apply required_placeholders. }
    { by rewrite normalize_required, Hnone. }
    exists missing. split; [done|]. intros rest n m tbl.
    apply load_lines_raise; [done|].
    unfold row_of. rewrite Hprep. simpl. by rewrite Hbind.
  - intros Hall. eexists. split; [by apply bind_params_bound|].
    cbn [p_event_id p_event_time p_ingestion_time p_event_name p_user_id
         p_session_id p_device].
    do 7 (split; [reflexivity|]).
    intros r rest n m tbl Hr Hnew.
    eapply accepted_record_loaded; [done..|by apply bind_params_bound|done|done].
  - intros Hdev. unfold normalize, dict_get.
    rewrite fmap_insert.
    rewrite (lookup_insert_ne d (py "device") (py "payload")) by key_ne.
    set (P := Dumps _).
    rewrite !lookup_insert_ne by key_ne.
    rewrite lookup_insert_eq.
    rewrite !lookup_insert_ne by key_ne.
    rewrite !lookup_fmap, Hdev. simpl.
    apply map_eq. intros i.
    rewrite !lookup_insert. repeat case_decide; congruence.
Qed.

(** ** Discovery of the staged batches *)

Lemma str_le_total (a b : pystr) : str_le a b ∨ str_le b a.
Proof.
  revert b. induction a as [|x a IH]; intros [|y b]; simpl; auto.
  destruct (N.ltb_spec x y), (N.ltb_spec y x); auto; lia.
Qed.

Lemma str_le_trans (a b c : pystr) : str_le a b → str_le b c → str_le a c.
Proof.
  revert b c. induction a as [|x a IH]; intros [|y b] [|z c]; simpl; try done.
  destruct (N.ltb_spec x y), (N.ltb_spec y x), (N.ltb_spec y z),
    (N.ltb_spec z y), (N.ltb_spec x z), (N.ltb_spec z x);
    try done; try lia; eauto.
Qed.

#[local] Instance str_le_Total : Total (λ a b : pystr, str_le a b).
Proof. intros a b. apply str_le_total. Qed.

#[local] Instance str_le_Transitive : Transitive (λ a b : pystr, str_le a b).
Proof. intros a b c. apply str_le_trans. Qed.

Lemma elem_of_staged_files w p :
  p ∈ staged_files w ↔ is_Some (incoming w !! p) ∧ py ".jsonl" `suffix_of` p.
Proof.
  unfold staged_files. rewrite merge_sort_Permutation, list_elem_of_filter.
  rewrite list_elem_of_fmap. split.
  - intros (Hsuf & [q lines] & -> & Hin). split; [|done].
    apply elem_of_map_to_list in Hin. simpl. eauto.
  - intros ([lines Hl] & Hsuf). split; [done|].
    exists (p, lines). split; [done|]. by apply elem_of_map_to_list.
Qed.

(** X9: [main] discovers exactly the files of the staging directory whose
    name ends in [.jsonl], each once, in ascending order of their names
    compared code point by code point. *)
Theorem staged_files_spec w :
  (∀ p, p ∈ staged_files w
        ↔ is_Some (incoming w !! p) ∧ py ".jsonl" `suffix_of` p)
  ∧ NoDup (staged_files w)
  ∧ StronglySorted (λ a b : pystr, str_le a b) (staged_files w).
Proof.
  split; [apply elem_of_staged_files|]. split; [apply staged_files_NoDup|].
  apply StronglySorted_merge_sort; apply _.
Qed.

(** ** What an attempt and a run of [main] leave alone *)

(** How an attempt changes the world: not at all, or by one commit to the
    store behind [dsn] and the move of [path]. *)
Lemma ingest_one_file_world att dsn path w :
  (ingest_one_file att dsn path w).1 = w
  ∨ ∃ db lines stats tbl,
      stores w !! dsn = Some db
      ∧ incoming w !! path = Some lines
      ∧ raw_events db ⊆ tbl
      ∧ ingest_one_file att dsn path w
        = (moved path lines (committed att dsn path w db stats tbl),
           Done stats path).
Proof.
  destruct (ingest_one_file_cases att dsn path w)
    as [(e & _ & He)|(stats & w1 & lines & Hw & Hf & Hi)].
  - left. by rewrite He.
  - right. apply with_connect_inr in Hw
      as (db & lines' & n & m & tbl & Hdb & Hf' & Hll & -> & _ & _ & _ & ->).
    rewrite Hf in Hf'. injection Hf' as <-.
    exists db, lines, {| rows_in_file := n; rows_loaded := m;
                         rows_deduped := n - m |}, tbl.
    repeat split; try done. by eapply load_lines_subseteq.
Qed.

Lemma preserves_refl w : preserves w w.
Proof. repeat split; eauto. Qed.

Lemma preserves_trans w1 w2 w3 :
  preserves w1 w2 → preserves w2 w3 → preserves w1 w3.
Proof.
  intros (Hs1 & Hf1 & Hi1 & Ha1) (Hs2 & Hf2 & Hi2 & Ha2). repeat split.
  - etrans; [apply Hs1|apply Hs2].
  - etrans; [apply Hs1|apply Hs2].
  - intros p lines Hp. destruct (Hf1 p lines Hp) as [Hst|[Hgone Harch]].
    + by apply Hf2.
    + right. split; [|by eapply Ha2].
      destruct (incoming w3 !! p) eqn:H3; [|done].
      eapply lookup_weaken in H3; [|exact Hi2]. congruence.
  - by etrans.
  - intros p old Harch Hgone. eapply Ha2; [by eapply Ha1|].
    destruct (incoming w2 !! p) eqn:H2; [|done].
    eapply lookup_weaken in H2; [|exact Hi1]. congruence.
Qed.

Lemma ingest_one_file_preserves att dsn path w :
  preserves w (ingest_one_file att dsn path w).1.
Proof.
  destruct (ingest_one_file_world att dsn path w)
    as [->|(db & lines & stats & tbl & Hdb & Hf & Hsub & ->)];
    [apply preserves_refl|].
  simpl. repeat split.
  - unfold events_of. simpl.
    destruct (decide (dsn = dsn0)) as [<-|Hne].
    + by rewrite lookup_insert_eq, Hdb.
    + by rewrite lookup_insert_ne.
  - unfold runs_of. simpl.
    destruct (decide (dsn = dsn0)) as [<-|Hne].
    + rewrite lookup_insert_eq, Hdb. simpl. by apply prefix_app_r.
    + by rewrite lookup_insert_ne.
  - intros p ls Hp. simpl. destruct (decide (path = p)) as [<-|Hne].
    + right. rewrite lookup_delete_eq, lookup_insert_eq. split; congruence.
    + left. by rewrite lookup_delete_ne.
  - simpl. apply delete_subseteq.
  - intros p old Harch Hgone. simpl.
    rewrite lookup_insert_ne; [done|]. congruence.
Qed.

Lemma ingest_files_preserves att k dsn files w :
  preserves w (ingest_files att k dsn files w).1.
Proof.
  revert k w. induction files as [|p files IH]; intros k w;
    [apply preserves_refl|].
  simpl. pose proof (ingest_one_file_preserves (att k) dsn p w) as Hstep.
  destruct (ingest_one_file (att k) dsn p w) as [w1 [stats arch|e]];
    [|exact Hstep].
  specialize (IH (S k) w1).
  destruct (ingest_files att (S k) dsn files w1) as [w2 calls].
  by eapply preserves_trans.
Qed.

Lemma main_preserves pg_dsn att w : preserves w (main pg_dsn att w).1.1.
Proof.
  unfold main. destruct (get_dsn pg_dsn) as [e|dsn]; [apply preserves_refl|].
  destruct (staged_files w) as [|f fs]; [apply preserves_refl|].
  pose proof (ingest_files_preserves att 0 dsn (f :: fs) w) as Hp.
  by destruct (ingest_files att 0 dsn (f :: fs) w).
Qed.

(** X10: a run of [main] only ever adds to a store: every event stored
    before it is stored after it, with the same row, and the audit rows that
    were recorded are still the first rows of [ingestion_runs], in the same
    order.  This holds for every store, however the run ends. *)
Theorem main_only_adds pg_dsn att w dsn :
  events_of dsn w ⊆ events_of dsn (main pg_dsn att w).1.1
  ∧ runs_of dsn w `prefix_of` runs_of dsn (main pg_dsn att w).1.1.
Proof. apply (main_preserves pg_dsn att w). Qed.

(** X11: a run of [main] neither loses nor alters a file, however it ends:
    a file that was staged is afterwards still staged or in the archive
    under its name, with the same lines; no file appears in the staging
    directory; and an archived file whose name was not staged is kept. *)
Theorem main_keeps_files pg_dsn att w :
  (∀ p lines, incoming w !! p = Some lines →
     incoming (main pg_dsn att w).1.1 !! p = Some lines
     ∨ (incoming (main pg_dsn att w).1.1 !! p = None
        ∧ archive (main pg_dsn att w).1.1 !! p = Some lines))
  ∧ incoming (main pg_dsn att w).1.1 ⊆ incoming w
  ∧ (∀ p old, archive w !! p = Some old → incoming w !! p = None →
       archive (main pg_dsn att w).1.1 !! p = Some old).
Proof. apply (main_preserves pg_dsn att w). Qed.

(** ** A run of [main] that ends well *)

Lemma raised_cons_done p stats archived calls :
  raised ((p, Done stats archived) :: calls) = raised calls.
Proof. unfold raised. destruct calls as [|c calls]; [done|]. by rewrite last_cons_cons. Qed.

Lemma ingest_files_gone att k dsn files w w' calls :
  ingest_files att k dsn files w = (w', calls) →
  raised calls = None →
  ∀ p, p ∈ files → incoming w' !! p = None.
Proof.
  revert k w calls. induction files as [|f files IH]; intros k w calls Hi Hok p Hp.
  { by apply elem_of_nil in Hp. }
  simpl in Hi.
  destruct (ingest_one_file_cases (att k) dsn f w)
    as [(e & _ & He)|(stats & w1 & lines & _ & _ & Hone)].
  { rewrite He in Hi. injection Hi as <- <-. discriminate. }
  rewrite Hone in Hi.
  destruct (ingest_files att (S k) dsn files (moved f lines w1))
    as [w2 calls2] eqn:Hrec.
  injection Hi as <- <-. rewrite raised_cons_done in Hok.
  apply elem_of_cons in Hp as [->|Hp]; [|by eapply IH].
  pose proof (ingest_files_preserves att (S k) dsn files (moved f lines w1))
    as (_ & _ & Hsub & _).
  rewrite Hrec in Hsub. simpl in Hsub.
  destruct (incoming w2 !! f) eqn:H2; [|done].
  eapply lookup_weaken in H2; [|exact Hsub].
  simpl in H2. by rewrite lookup_delete_eq in H2.
Qed.

(** X12: when [main] ends without an exception, it has attempted every
    discovered batch, in order; each of them is then in the archive with the
    lines it had and no longer staged, and no [.jsonl] file is left in the
    staging directory. *)
Theorem main_archives_all pg_dsn att w dsn w' calls :
  get_dsn pg_dsn = inr dsn →
  main pg_dsn att w = (w', calls, None) →
  calls.*1 = staged_files w
  ∧ staged_files w' = []
  ∧ ∀ p, p ∈ staged_files w →
      incoming w' !! p = None ∧ archive w' !! p = incoming w !! p.
Proof.
  intros Hdsn Hmain.
  pose proof (main_preserves pg_dsn att w) as (_ & Hfiles & Hsub & _).
  rewrite Hmain in Hfiles, Hsub. simpl in Hfiles, Hsub.
  assert (Hgone : calls.*1 = staged_files w
                  ∧ ∀ p, p ∈ staged_files w → incoming w' !! p = None).
  { unfold main in Hmain. rewrite Hdsn in Hmain.
    destruct (staged_files w) as [|f fs] eqn:Hst.
    - injection Hmain as <- <-. split; [done|]. intros p Hp.
      by apply elem_of_nil in Hp.
    - destruct (ingest_files att 0 dsn (f :: fs) w) as [w2 calls2] eqn:Hi.
      injection Hmain as <- <- Hok. split.
      + by eapply ingest_files_all.
      + by eapply ingest_files_gone. }
  destruct Hgone as [Hcalls Hgone]. split; [done|]. split.
  - destruct (staged_files w') as [|q l] eqn:Hst'; [done|]. exfalso.
    assert (Hq : q ∈ staged_files w') by (rewrite Hst'; by left).
    apply elem_of_staged_files in Hq as [[lines Hl] Hsuf].
    eapply lookup_weaken in Hl as Hl0; [|exact Hsub].
    assert (Hq0 : q ∈ staged_files w) by (apply elem_of_staged_files; eauto).
    apply Hgone in Hq0. congruence.
  - intros p Hp. split; [by apply Hgone|].
    apply elem_of_staged_files in Hp as Hp'. destruct Hp' as [[lines Hl] _].
    destruct (Hfiles p lines Hl) as [Hst|[_ Harch]]; [|congruence].
    apply Hgone in Hp. congruence.
Qed.

(** ** The audit trail *)

Lemma ingest_files_audit att k dsn files w :
  runs_of dsn (ingest_files att k dsn files w).1
  = runs_of dsn w ++ audit_rows att k (ingest_files att k dsn files w).2.
Proof.
  revert k w. induction files as [|f files IH]; intros k w.
  { simpl. by rewrite app_nil_r. }
  simpl.
  destruct (ingest_one_file_cases (att k) dsn f w)
    as [(e & _ & He)|(stats & w1 & lines & Hw & _ & Hone)].
  - rewrite He. simpl. by rewrite app_nil_r.
  - rewrite Hone. specialize (IH (S k) (moved f lines w1)).
    destruct (ingest_files att (S k) dsn files (moved f lines w1))
      as [w2 calls2]. simpl in *. rewrite IH, runs_of_moved.
    apply with_connect_inr in Hw
      as (db & lines' & n & m & tbl & Hdb & _ & _ & -> & _ & _ & _ & ->).
    rewrite runs_of_committed. unfold runs_of. rewrite Hdb. simpl.
    by rewrite <- app_assoc.
Qed.

Lemma ingest_files_names att k dsn files w :
  raised (ingest_files att k dsn files w).2 = None →
  file_name <$> audit_rows att k (ingest_files att k dsn files w).2 = files.
Proof.
  revert k w. induction files as [|f files IH]; intros k w Hok; [done|].
  simpl in *.
  destruct (ingest_one_file_cases (att k) dsn f w)
    as [(e & _ & He)|(stats & w1 & lines & _ & _ & Hone)].
  - rewrite He in Hok. discriminate Hok.
  - rewrite Hone in *. specialize (IH (S k) (moved f lines w1)).
    destruct (ingest_files att (S k) dsn files (moved f lines w1))
      as [w2 calls2].
    simpl in *. rewrite raised_cons_done in Hok. f_equal. by apply IH.
Qed.

(** X13: a run of [main] keeps the audit trail in step with its attempts.
    However it ends, the rows recorded before it, followed by one row for
    each attempt that completed, in the order of the attempts, are the first
    rows of [ingestion_runs] afterwards; the row of an attempt carries the
    file's name, the counts of the summary line, the status [success] and no
    error message.  When [main] ends without an exception, these are all
    the rows, one for each discovered batch, in the order of their names. *)
Theorem main_audit_trail pg_dsn att w dsn :
  get_dsn pg_dsn = inr dsn →
  (runs_of dsn w ++ audit_rows att 0 (main pg_dsn att w).1.2)
    `prefix_of` runs_of dsn (main pg_dsn att w).1.1
  ∧ ((main pg_dsn att w).2 = None →
     runs_of dsn (main pg_dsn att w).1.1
     = runs_of dsn w ++ audit_rows att 0 (main pg_dsn att w).1.2
     ∧ file_name <$> audit_rows att 0 (main pg_dsn att w).1.2 = staged_files w).
Proof.
  intros Hdsn. unfold main. rewrite Hdsn.
  destruct (staged_files w) as [|f fs] eqn:Hst.
  { simpl. rewrite app_nil_r. done. }
  pose proof (ingest_files_audit att 0 dsn (f :: fs) w) as Ha.
  pose proof (ingest_files_names att 0 dsn (f :: fs) w) as Hn.
  destruct (ingest_files att 0 dsn (f :: fs) w) as [w' calls].
  cbn [fst snd] in *. rewrite Ha. split; [done|]. intros Hok. split; [done|].
  by apply Hn.
Qed.

(** X14: an attempt that completes has counted fewer than 2^31 records (the
    counts must fit the SQL type [int] of the audit row), reports the
    archive name of the file it was given, and the last audit row of the
    store is the one of this attempt, with the counts of the summary. *)
Theorem completed_attempt_summary att dsn path w w' stats archived :
  ingest_one_file att dsn path w = (w', Done stats archived) →
  0 ≤ rows_in_file stats < 2 ^ 31
  ∧ archived = path
  ∧ last (runs_of dsn w') = Some (success_run att path stats).
Proof.
  intros Hi.
  destruct (ingest_one_file_cases att dsn path w)
    as [(e & _ & He)|(stats' & w1 & lines & Hw & _ & Hone)]; [congruence|].
  rewrite Hone in Hi. injection Hi as <- <- <-.
  apply with_connect_inr in Hw
    as (db & lines' & n & m & tbl & _ & _ & Hll & -> & Hn & _ & _ & ->).
  apply load_lines_counts in Hll.
  rewrite runs_of_moved, runs_of_committed, last_snoc. simpl.
  unfold int4 in Hn. apply andb_true_iff in Hn as [_ Hn%Z.ltb_lt].
  repeat split; try done; lia.
Qed.

(** X15: the store is reached before the file is opened.  An attempt on a
    DSN behind which there is no store raises with the connection error as
    its cause, whether the file is staged or not; an attempt on a file that
    is not staged raises with [FileNotFoundError] as its cause.  Both leave
    the world as it was. *)
Theorem ingest_one_file_preconditions att dsn path w :
  (stores w !! dsn = None →
   ingest_one_file att dsn path w
   = (w, Raised (RuntimeError (failed_to_ingest path (OperationalError dsn))
                   (Some (OperationalError dsn)))))
  ∧ (is_Some (stores w !! dsn) → incoming w !! path = None →
     ingest_one_file att dsn path w
     = (w, Raised (RuntimeError (failed_to_ingest path (FileNotFoundError path))
                     (Some (FileNotFoundError path))))).
Proof.
  split.
  - intros Hno. unfold ingest_one_file, with_connect, connect. by rewrite Hno.
  - intros [db Hdb] Hno.
    unfold ingest_one_file, with_connect, connect, load_jsonl_file.
    rewrite Hdb. simpl. by rewrite Hno.
Qed.

End LoaderProperties.

(** * The further properties on the sample batches *)

Section LoaderExamples.
Import Ref Sample Sample2.

Ltac run := vm_compute; reflexivity.
Ltac differ := let E := fresh in intros E; vm_compute in E; discriminate E.

Lemma missing_field_raises_witness :
  ¬ blank event_no_user
  ∧ json_loads (strip event_no_user) = Some (parsed event_no_user)
  ∧ as_dict (parsed event_no_user) = Some (dict_of event_no_user)
  ∧ py "user_id" ∈ required
  ∧ dict_of event_no_user !! py "user_id" = None
  ∧ ∃ missing,
      py "user_id" ∈ missing
      ∧ load_lines [event_no_user; event_a] 0 0 ∅
        = inl (ProgrammingError missing).
Proof.
  assert (Hb : ¬ blank event_no_user) by differ.
  assert (Hv : json_loads (strip event_no_user) = Some (parsed event_no_user))
    by run.
  assert (Hd : as_dict (parsed event_no_user) = Some (dict_of event_no_user))
    by run.
  assert (Hk : py "user_id" ∈ required).
  { unfold required. cbn [fmap list_fmap].
    do 4 apply list_elem_of_further. apply list_elem_of_here. }
  assert (Hnone : dict_of event_no_user !! py "user_id" = None) by run.
  destruct (proj1 (missing_field_raises _ _ _ Hb Hv Hd) _ Hk Hnone)
    as (missing & Hin & Hraise).
  split; [exact Hb|]. split; [exact Hv|]. split; [exact Hd|].
  split; [exact Hk|]. split; [exact Hnone|].
  exists missing. split; [exact Hin|]. apply Hraise.
Defined.

(** C6, as the spec has it, fails on a record without [device] and on a
    record whose fields have the wrong types: the loader binds either of
    them and raises nothing, the first with a null device, the second with
    the values as they are.  Whatever the libraries are, the record without
    device is then loaded as soon as the store takes the values bound; the
    reference store, where [device] may be null like [product_id] and
    [price], is one that does. *)
Lemma missing_device_not_refused :
  record_no_device !! py "device" = None
  ∧ bind_params (normalize record_no_device) = inr params_no_device
  ∧ p_device params_no_device = Val JNull
  ∧ (∃ p, bind_params (normalize record_ill_typed) = inr p
          ∧ p_event_name p = Val (JInt 404)
          ∧ p_user_id p = Val (JStr (py "eighteen"))
          ∧ p_device p = Val (JArr [JStr (py "web")]))
  ∧ (∀ (L : Libs) line v r rest n m (tbl : gmap N (@Row L)),
       ¬ blank line →
       @json_loads L (strip line) = Some v →
       as_dict v = Some record_no_device →
       @insert_values L params_no_device = Some r →
       tbl !! @row_event_id L r = None →
       @load_lines L (line :: rest) n m tbl
       = @load_lines L rest (n + 1) (m + 1) (<[@row_event_id L r := r]> tbl))
  ∧ ¬ blank event_no_device
  ∧ (∃ v, json_loads (strip event_no_device) = Some v
          ∧ as_dict v = Some record_no_device)
  ∧ ∃ r, insert_values params_no_device = Some r
         ∧ r_device r = None
         ∧ load_lines [event_no_device] 0 0 ∅ = inr (1, 1, {[r_event_id r := r]}).
Proof.
  assert (Hbind : bind_params (normalize record_no_device) = inr params_no_device)
    by run.
  split; [run|]. split; [exact Hbind|]. split; [reflexivity|]. split.
  { destruct (bind_params (normalize record_ill_typed)) as [e|p] eqn:Hp;
      [vm_compute in Hp; discriminate Hp|].
    exists p. split; [reflexivity|].
    vm_compute in Hp. injection Hp as <-. repeat split. }
  split.
  { intros L line v r rest n m tbl Hb Hv Hd Hr Hnew.
    by eapply (@accepted_record_loaded L). }
  split; [differ|]. split.
  { exists (parsed event_no_device). split; run. }
  destruct (insert_values params_no_device) as [r|] eqn:Hr;
    [|vm_compute in Hr; discriminate Hr].
  exists r. split; [reflexivity|].
  vm_compute in Hr. injection Hr as <-. split; run.
Qed.

Lemma rows_loaded_is_growth_witness :
  incoming w_aba !! aba = Some [event_a; event_b; event_a_late]
  ∧ ∃ w' stats,
      ingest_one_file first_try dsn aba w_aba = (w', Done stats aba)
      ∧ rows_loaded stats = 2
      ∧ Z.of_nat (size (events_of dsn w'))
        = Z.of_nat (size (events_of dsn w_aba)) + rows_loaded stats
      ∧ dom (events_of dsn w')
        = dom (events_of dsn w_aba)
          ∪ list_to_set (line_ids [event_a; event_b; event_a_late]).
Proof.
  assert (Hf : incoming w_aba !! aba = Some [event_a; event_b; event_a_late])
    by run.
  split; [exact Hf|].
  assert (Hrun : match ingest_one_file first_try dsn aba w_aba with
                 | (_, Done stats archived) => rows_loaded stats = 2 ∧ archived = aba
                 | _ => False
                 end) by (vm_compute; split; reflexivity).
  destruct (ingest_one_file first_try dsn aba w_aba) as [w' [stats archived|e]]
    eqn:Hi; [|contradiction].
  destruct Hrun as [Hloaded ->].
  exists w', stats. split; [reflexivity|]. split; [exact Hloaded|].
  exact (rows_loaded_is_growth _ _ _ _ _ _ _ _ Hf Hi).
Defined.

Lemma load_jsonl_file_split_witness :
  incoming w_split !! part_a = Some [event_a; newline]
  ∧ incoming w_split !! part_b = Some [event_b; event_a_late]
  ∧ incoming w_split !! aba = Some ([event_a; newline] ++ [event_b; event_a_late])
  ∧ ∃ sa sb conn1 conn2,
      load_jsonl_file fresh part_a w_split = inr (sa, conn1)
      ∧ load_jsonl_file conn1 part_b w_split = inr (sb, conn2)
      ∧ rows_loaded sa = 1 ∧ rows_loaded sb = 1 ∧ rows_deduped sb = 1
      ∧ load_jsonl_file fresh aba w_split
        = inr ({| rows_in_file := rows_in_file sa + rows_in_file sb;
                  rows_loaded := rows_loaded sa + rows_loaded sb;
                  rows_deduped := rows_deduped sa + rows_deduped sb |}, conn2).
Proof.
  assert (Ha : incoming w_split !! part_a = Some [event_a; newline]) by run.
  assert (Hb : incoming w_split !! part_b = Some [event_b; event_a_late]) by run.
  assert (Hab : incoming w_split !! aba
                = Some ([event_a; newline] ++ [event_b; event_a_late])) by run.
  split; [exact Ha|]. split; [exact Hb|]. split; [exact Hab|].
  assert (Hrun : match load_jsonl_file fresh part_a w_split with
                 | inr (sa, conn1) =>
                     rows_loaded sa = 1
                     ∧ match load_jsonl_file conn1 part_b w_split with
                       | inr (sb, _) => rows_loaded sb = 1 ∧ rows_deduped sb = 1
                       | inl _ => False
                       end
                 | inl _ => False
                 end) by (vm_compute; repeat split).
  destruct (load_jsonl_file fresh part_a w_split) as [e|[sa conn1]] eqn:Hla;
    [contradiction|].
  destruct Hrun as [Hsa Hrun].
  destruct (load_jsonl_file conn1 part_b w_split) as [e|[sb conn2]] eqn:Hlb;
    [contradiction|].
  destruct Hrun as [Hsb Hdb].
  exists sa, sb, conn1, conn2.
  split; [reflexivity|]. split; [exact Hlb|].
  split; [exact Hsa|]. split; [exact Hsb|]. split; [exact Hdb|].
  exact (load_jsonl_file_split fresh part_a part_b aba w_split _ _ _ _ _ _
           Ha Hb Hab Hla Hlb).
Defined.

Lemma first_invalid_record_raises_witness :
  ∃ tbl',
    load_lines [event_a; newline] 0 0 ∅ = inr (1, 1, tbl')
    ∧ ¬ blank unparsable
    ∧ row_of unparsable = inl (JSONDecodeError (strip unparsable))
    ∧ load_lines ([event_a; newline] ++ unparsable :: [event_no_user; event_b])
        0 0 ∅
      = inl (JSONDecodeError (strip unparsable)).
Proof.
  assert (Hrun : match load_lines [event_a; newline] 0 0 ∅ with
                 | inr (n, m, _) => n = 1 ∧ m = 1
                 | inl _ => False
                 end) by (vm_compute; split; reflexivity).
  destruct (load_lines [event_a; newline] 0 0 ∅) as [e|[[n m] tbl']] eqn:Hpre;
    [contradiction|].
  destruct Hrun as [-> ->].
  assert (Hb : ¬ blank unparsable) by differ.
  assert (He : row_of unparsable = inl (JSONDecodeError (strip unparsable)))
    by run.
  exists tbl'. split; [reflexivity|]. split; [exact Hb|]. split; [exact He|].
  exact (first_invalid_record_raises _ _ [event_no_user; event_b] _ _ _ _ _ _ _
           Hpre Hb He).
Defined.

Lemma load_lines_reordered_witness :
  [event_a; event_b; event_a_late] ≡ₚ [event_a_late; event_b; event_a]
  ∧ ∃ tbl' tbl'',
      load_lines [event_a; event_b; event_a_late] 0 0 ∅ = inr (3, 2, tbl')
      ∧ load_lines [event_a_late; event_b; event_a] 0 0 ∅ = inr (3, 2, tbl'')
      ∧ dom tbl'' = dom tbl'
      ∧ tbl'' ≠ tbl'.
Proof.
  assert (Hperm : [event_a; event_b; event_a_late]
                  ≡ₚ [event_a_late; event_b; event_a]).
  { etrans; [apply Permutation_swap|]. etrans; [apply perm_skip, Permutation_swap|].
    apply Permutation_swap. }
  split; [exact Hperm|].
  assert (Hrun : match load_lines [event_a; event_b; event_a_late] 0 0 ∅,
                       load_lines [event_a_late; event_b; event_a] 0 0 ∅ with
                 | inr (n, m, t1), inr (_, _, t2) =>
                     n = 3 ∧ m = 2
                     ∧ (r_payload <$> t1 !! id_a) ≠ (r_payload <$> t2 !! id_a)
                 | _, _ => False
                 end).
  { vm_compute. repeat split. discriminate. }
  destruct (load_lines [event_a; event_b; event_a_late] 0 0 ∅)
    as [e|[[n m] tbl']] eqn:Hl; [contradiction|].
  destruct (load_lines_reordered _ _ _ _ _ _ _ _ Hl Hperm) as (tbl'' & Hl' & Hdom).
  rewrite Hl' in Hrun. destruct Hrun as (-> & -> & Hdiff).
  exists tbl', tbl''. split; [reflexivity|]. split; [exact Hl'|].
  split; [exact Hdom|]. intros ->. by apply Hdiff.
Defined.

Lemma unknown_field_ignored_witness :
  (py "debug" ∉ INSERT_SQL)
  ∧ dict_a !! py "debug" = None
  ∧ bind_params (normalize (<[py "debug" := JBool true]> dict_a))
    = bind_params (normalize dict_a)
  ∧ ∃ p, bind_params (normalize dict_a) = inr p.
Proof.
  assert (Hk : py "debug" ∉ INSERT_SQL).
  { unfold INSERT_SQL. cbn [fmap list_fmap].
    repeat (apply not_elem_of_cons; split; [differ|]). apply not_elem_of_nil. }
  split; [exact Hk|]. split; [run|].
  split; [exact (unknown_field_ignored dict_a _ (JBool true) Hk)|].
  destruct (bind_params (normalize dict_a)) as [e|p] eqn:Hp;
    [vm_compute in Hp; discriminate Hp|].
  by exists p.
Defined.

Lemma optional_fields_bound_witness :
  dict_of event_no_device !! py "device" = None
  ∧ dict_of event_no_device !! py "price" = Some JNull
  ∧ ∃ p,
      bind_params (normalize (dict_of event_no_device)) = inr p
      ∧ p_product_id p = Val (JInt 12)
      ∧ p_price p = Val JNull
      ∧ p_device p = Val JNull
      ∧ p_payload p
        = Dumps (JObj [(py "source", JStr (py "synthetic_generator"))]).
Proof.
  split; [run|]. split; [run|].
  destruct (bind_params (normalize (dict_of event_no_device))) as [e|p] eqn:Hp;
    [vm_compute in Hp; discriminate Hp|].
  exists p. split; [reflexivity|].
  destruct (optional_fields_bound _ _ Hp) as (Hpid & Hprice & Hdev & Hpay).
  rewrite Hpid, Hprice, Hdev, Hpay.
  split; [run|]. split; [run|]. split; run.
Defined.

Lemma main_archives_all_witness :
  get_dsn (Some dsn) = inr dsn
  ∧ staged_files w_two_good = [aba; good]
  ∧ ∃ w' calls,
      main (Some dsn) tries w_two_good = (w', calls, None)
      ∧ calls.*1 = staged_files w_two_good
      ∧ staged_files w' = []
      ∧ (∀ p, p ∈ staged_files w_two_good →
           incoming w' !! p = None
           ∧ archive w' !! p = incoming w_two_good !! p)
      ∧ incoming w' !! notes = Some [py "staging area"].
Proof.
  assert (Hdsn : get_dsn (Some dsn) = inr dsn) by run.
  split; [exact Hdsn|]. split; [run|].
  assert (Hrun : match main (Some dsn) tries w_two_good with
                 | (w', _, None) => incoming w' !! notes = Some [py "staging area"]
                 | _ => False
                 end) by run.
  destruct (main (Some dsn) tries w_two_good) as [[w' calls] [e|]] eqn:Hmain;
    [contradiction|].
  exists w', calls. split; [reflexivity|].
  destruct (main_archives_all _ _ _ _ _ _ Hdsn Hmain) as (Hcalls & Hleft & Hall).
  split; [exact Hcalls|]. split; [exact Hleft|]. split; [exact Hall|exact Hrun].
Defined.

Lemma main_audit_trail_witness :
  get_dsn (Some dsn) = inr dsn
  ∧ (main (Some dsn) tries w_two_good).2 = None
  ∧ runs_of dsn (main (Some dsn) tries w_two_good).1.1
    = runs_of dsn w_two_good
      ++ audit_rows tries 0 (main (Some dsn) tries w_two_good).1.2
  ∧ file_name <$> audit_rows tries 0 (main (Some dsn) tries w_two_good).1.2
    = staged_files w_two_good
  ∧ file_name <$> runs_of dsn (main (Some dsn) tries w_two_good).1.1
    = [aba; good].
Proof.
  assert (Hdsn : get_dsn (Some dsn) = inr dsn) by run.
  assert (Hok : (main (Some dsn) tries w_two_good).2 = None) by run.
  destruct (main_audit_trail (Some dsn) tries w_two_good dsn Hdsn) as [_ Hend].
  destruct (Hend Hok) as [Hrows Hnames].
  split; [exact Hdsn|]. split; [exact Hok|]. split; [exact Hrows|].
  split; [exact Hnames|]. run.
Defined.

Lemma completed_attempt_summary_witness :
  ∃ w' stats,
    ingest_one_file first_try dsn aba w_aba = (w', Done stats aba)
    ∧ rows_in_file stats = 3
    ∧ 0 ≤ rows_in_file stats < 2 ^ 31
    ∧ last (runs_of dsn w') = Some (success_run first_try aba stats).
Proof.
  assert (Hrun : match ingest_one_file first_try dsn aba w_aba with
                 | (_, Done stats archived) => rows_in_file stats = 3
                 | _ => False
                 end) by run.
  destruct (ingest_one_file first_try dsn aba w_aba) as [w' [stats archived|e]]
    eqn:Hi; [|contradiction].
  destruct (completed_attempt_summary _ _ _ _ _ _ _ Hi) as (Hfit & -> & Hlast).
  exists w', stats. split; [reflexivity|]. split; [exact Hrun|].
  split; [exact Hfit|exact Hlast].
Defined.

Lemma ingest_one_file_preconditions_witness :
  ingest_one_file first_try (py "postgresql://dwh@nowhere:5432/dwh") aba w_aba
  = (w_aba,
     Raised (RuntimeError
               (failed_to_ingest aba
                  (OperationalError (py "postgresql://dwh@nowhere:5432/dwh")))
               (Some (OperationalError (py "postgresql://dwh@nowhere:5432/dwh")))))
  ∧ ingest_one_file first_try dsn good w_aba
    = (w_aba,
       Raised (RuntimeError (failed_to_ingest good (FileNotFoundError good))
                 (Some (FileNotFoundError good)))).
Proof.
  destruct (ingest_one_file_preconditions first_try
              (py "postgresql://dwh@nowhere:5432/dwh") aba w_aba) as [Hstore _].
  destruct (ingest_one_file_preconditions first_try dsn good w_aba)
    as [_ Hfile].
  split.
  - apply Hstore. run.
  - apply Hfile; [exists empty_db|]; run.
Defined.

End LoaderExamples.

(** * Properties of the generator *)

Section GeneratorProperties.
Import Gen.
Context `{Entropy}.

Lemma randint_ok a b g : a ≤ b → randint a b g = Some (randrange a b g).
Proof. intros Hab. unfold randint. by rewrite (proj2 (Z.leb_le a b)). Qed.

Lemma randint_range a b g r g' : randint a b g = Some (r, g') → a ≤ r ≤ b.
Proof.
  unfold randint. destruct (Z.leb_spec a b) as [Hab|]; [|done].
  intros [= Hr]. pose proof (randrange_spec a b g Hab) as Hs.
  by rewrite Hr in Hs.
Qed.

Lemma bisect_bounds turns a x lo hi :
  (lo ≤ hi)%nat → (lo ≤ bisect turns a x lo hi ≤ hi)%nat.
Proof.
  revert lo hi. induction turns as [|turns IH]; intros lo hi Hle;
    cbn [bisect]; [lia|].
  destruct (Nat.ltb_spec lo hi) as [Hlt|]; [|lia].
  pose proof (Nat.div_mod_eq (lo + hi) 2) as Hdiv.
  pose proof (Nat.mod_upper_bound (lo + hi) 2 ltac:(lia)) as Hmod.
  set (mid := ((lo + hi) / 2)%nat) in *.
  destruct (x <? nth _ a 0)%float.
  - assert (Hle' : (lo ≤ mid)%nat) by lia. apply IH in Hle'. lia.
  - assert (Hle' : (S mid ≤ hi)%nat) by lia. apply IH in Hle'. lia.
Qed.

Lemma accumulate_from_length acc ws :
  length (accumulate_from acc ws) = length ws.
Proof. revert acc. induction ws as [|w ws IH]; intros acc; simpl; [done|by rewrite IH]. Qed.

Lemma accumulate_length ws : length (accumulate ws) = length ws.
Proof. destruct ws; simpl; [done|by rewrite accumulate_from_length]. Qed.

(** X21: [weighted_choice] returns one of the names it is given, after one
    draw from the random generator and whatever the draw is, as soon as
    there is a name and the running total of the weights is a positive
    finite number: the index that the bisection finds never leaves the
    list. *)
Theorem weighted_choice_returns (items : list (pystr * float)) g :
  items ≠ [] →
  (∀ c, last (accumulate items.*2) = Some c →
        (c + 0 <=? 0)%float = false ∧ is_finite (c + 0)%float = true) →
  ∃ x, x ∈ items.*1 ∧ weighted_choice items g = Some (x, (random g).2).
Proof.
  intros Hne Htotal. unfold weighted_choice, choices.
  assert (Hlen : length (accumulate items.*2) = length items.*1).
  { by rewrite accumulate_length, !length_fmap. }
  rewrite Hlen, Nat.eqb_refl. cbn [negb].
  assert (Hpos : (0 < length items.*1)%nat).
  { rewrite length_fmap. destruct items; [done|simpl; lia]. }
  destruct (last (accumulate items.*2)) as [c|] eqn:Hlast.
  - destruct (Htotal c eq_refl) as [-> ->]. cbn [negb].
    destruct (random g) as [r g1]. cbn [snd].
    set (i := bisect _ _ _ _ _).
    assert (Hi : (0 ≤ i ≤ length items.*1 - 1)%nat) by (apply bisect_bounds; lia).
    destruct (lookup_lt_is_Some_2 items.*1 i) as [x Hx]; [lia|].
    rewrite Hx. exists x. split; [by eapply list_elem_of_lookup_2|done].
  - apply last_None in Hlast. rewrite Hlast in Hlen. simpl in Hlen. lia.
Qed.

(** The draw of the device never raises and gives one of the three. *)
Lemma device_choice g :
  ∃ dev, dev ∈ devices
    ∧ weighted_choice [(py "web", 0.55%float); (py "ios", 0.25%float);
                       (py "android", 0.20%float)] g
      = Some (dev, (random g).2).
Proof.
  unfold weighted_choice, choices.
  cbn [fmap list_fmap fst snd accumulate accumulate_from length Nat.eqb negb last].
  set (total := ((0.55 + 0.25 + 0.20) + 0)%float).
  assert (Hpos : (total <=? 0)%float = false) by (vm_compute; reflexivity).
  assert (Hfin : is_finite total = true) by (vm_compute; reflexivity).
  rewrite Hpos, Hfin. cbn [negb].
  destruct (random g) as [r g1]. cbn [snd Nat.sub].
  set (i := bisect _ _ _ _ _).
  assert (Hi : (0 ≤ i ≤ 2)%nat) by (apply bisect_bounds; lia).
  destruct i as [|[|[|i]]]; [| | |lia]; cbn [lookup list_lookup];
    eexists; (split; [|reflexivity]); unfold devices; cbn [fmap list_fmap];
    set_solver.
Qed.

(** ** One session *)

Lemma stage_product i name :
  funnel !! i = Some name →
  bool_decide (name ∈ py <$> ["view"; "cart"; "purchase"])
  = negb (bool_decide (i = 0%nat)).
Proof.
  destruct i as [|[|[|[|i]]]]; intros [= <-]; vm_compute; reflexivity.
Qed.

Lemma stage_price i name :
  funnel !! i = Some name →
  bool_decide (name = py "purchase") = bool_decide (i = 3%nat).
Proof.
  destruct i as [|[|[|[|i]]]]; intros [= <-]; vm_compute; reflexivity.
Qed.

Lemma written_cons e (twice : bool) groups :
  written ((e, twice) :: groups)
  = (if twice then [e; e] else [e]) ++ written groups.
Proof. done. Qed.

Lemma session_loop_spec names (i : nat) event_time user sid dev pid base
    late dup g :
  (∀ j name, names !! j = Some name → funnel !! (i + j)%nat = Some name) →
  base + seconds (2 * Z.of_nat i - 30) ≤ event_time →
  event_time ≤ base + seconds (40 * Z.of_nat i) →
  ∃ groups g',
    session_loop names (Z.of_nat i) event_time user sid dev pid base late dup g
    = Some (written groups, g')
    ∧ length groups = length names
    ∧ ∀ j e twice, groups !! j = Some (e, twice) →
        event_fields user base sid dev pid (i + j) e
        ∧ event_timing base (i + j) e.
Proof.
  revert i event_time g.
  induction names as [|name names IH]; intros i event_time g Hnames Hlo Hhi.
  { exists [], g. split; [done|]. split; [done|]. intros j e twice Hj. done. }
  assert (Hname : funnel !! i = Some name).
  { specialize (Hnames 0%nat name eq_refl). by rewrite Nat.add_0_r in Hnames. }
  cbn [session_loop].
  rewrite (randint_ok 2 40) by lia.
  pose proof (randrange_spec 2 40 g ltac:(lia)) as Hs.
  destruct (randrange 2 40 g) as [s g1]. cbn [fst] in Hs. cbn [mbind option_bind].
  destruct (random g1) as [r g2].
  set (et := event_time + seconds s).
  assert (Het : base + seconds (2 * (Z.of_nat i + 1) - 30) ≤ et
                ∧ et ≤ base + seconds (40 * (Z.of_nat i + 1))).
  { unfold et, seconds in *. lia. }
  (* the time the event is given, and the flag *)
  assert (Hlate : ∃ t is_late g3,
             (if (r <? late)%float then
                '(m, g) ← randint 10 240 g2;
                '(s, g) ← randint 0 59 g;
                Some (et - minutes_seconds m s, true, g)
              else Some (et, false, g2)) = Some (t, is_late, g3)
             ∧ if is_late : bool
               then base + seconds (2 * (Z.of_nat i + 1) - 30 - 14459) ≤ t
                    ∧ t ≤ base + seconds (40 * (Z.of_nat i + 1) - 600)
               else base + seconds (2 * (Z.of_nat i + 1) - 30) ≤ t
                    ∧ t ≤ base + seconds (40 * (Z.of_nat i + 1))).
  { destruct (r <? late)%float.
    - rewrite (randint_ok 10 240) by lia.
      pose proof (randrange_spec 10 240 g2 ltac:(lia)) as Hm.
      destruct (randrange 10 240 g2) as [m g3]. cbn [fst] in Hm.
      cbn [mbind option_bind].
      rewrite (randint_ok 0 59) by lia.
      pose proof (randrange_spec 0 59 g3 ltac:(lia)) as Hs'.
      destruct (randrange 0 59 g3) as [s' g4]. cbn [fst] in Hs'.
      cbn [mbind option_bind].
      eexists _, true, _. split; [reflexivity|].
      unfold minutes_seconds, seconds in *. lia.
    - by eexists _, false, _. }
  destruct Hlate as (t & is_late & g3 & -> & Ht). cbn [mbind option_bind].
  rewrite (stage_price i name Hname), (stage_product i name Hname).
  set (pr := if bool_decide (i = 3%nat)
             then let '(r, g) := random g3 in
                  (Some (round2 (5 + 245 * r)%float), g)
             else (None, g3)).
  assert (Hpr : pr.1 = None ↔ i ≠ 3%nat).
  { unfold pr. case_bool_decide; [destruct (random g3)|]; simpl; split; done. }
  destruct pr as [price g4]. cbn [fst] in Hpr.
  destruct (uuid4 g4) as [id g5]. destruct (random g5) as [r' g6].
  set (e := {| event_id := id; event_name := name |}).
  destruct (IH (S i) et g6) as (groups & g' & Hrec & Hlen & Hall).
  { intros j nm Hj. specialize (Hnames (S j) nm Hj).
    by rewrite Nat.add_succ_r in Hnames. }
  { rewrite Nat2Z.inj_succ. unfold Z.succ. apply Het. }
  { rewrite Nat2Z.inj_succ. unfold Z.succ. apply Het. }
  rewrite Nat2Z.inj_succ in Hrec. unfold Z.succ in Hrec. rewrite Hrec.
  cbn [mbind option_bind].
  exists ((e, (r' <? dup)%float) :: groups), g'.
  split; [by rewrite written_cons|]. split; [simpl; by rewrite Hlen|].
  intros [|j] e' twice Hj.
  - injection Hj as <- <-. rewrite Nat.add_0_r. split.
    + unfold event_fields, e. cbn. repeat split; try done.
      * by case_bool_decide; case_decide.
      * apply Hpr.
      * apply Hpr.
    + exists is_late, t. unfold e. cbn. repeat split; done.
  - rewrite Nat.add_succ_r. apply (Hall j e' twice Hj).
Qed.

Lemma event_names_funnel dv dc dp j name :
  event_names dv (dv && dc) (dv && dc && dp) !! j = Some name →
  funnel !! j = Some name.
Proof.
  destruct dv, dc, dp; destruct j as [|[|[|[|j]]]]; intros Hj;
    vm_compute in Hj |- *; congruence.
Qed.

Lemma event_names_length dv dc dp :
  (1 ≤ length (event_names dv dc dp) ≤ 4)%nat.
Proof. destruct dv, dc, dp; simpl; lia. Qed.

(** What a session is made of. *)
Lemma generate_session_events_spec user base late dup g :
  ∃ sid dev pid groups g',
    generate_session_events user base late dup g = Some (written groups, g')
    ∧ dev ∈ devices
    ∧ 1 ≤ pid ≤ 5000
    ∧ (1 ≤ length groups ≤ 4)%nat
    ∧ ∀ j e twice, groups !! j = Some (e, twice) →
        event_fields user base sid dev pid j e ∧ event_timing base j e.
Proof.
  unfold generate_session_events.
  destruct (uuid4 g) as [sid g1].
  destruct (device_choice g1) as (dev & Hdev & ->). cbn [mbind option_bind].
  rewrite (randint_ok 1 5000) by lia.
  pose proof (randrange_spec 1 5000 (random g1).2 ltac:(lia)) as Hpid.
  destruct (randrange 1 5000 (random g1).2) as [pid g2]. cbn [fst] in Hpid.
  cbn [mbind option_bind].
  destruct (random g2) as [r g3].
  set (dv := (r <? 0.85)%float).
  set (c := if dv then let '(r, g) := random g3 in ((r <? 0.30)%float, g)
            else (false, g3)).
  assert (Hc : c.1 = dv && c.1).
  { unfold c. destruct dv; [by destruct (random g3)|done]. }
  destruct c as [dc g4]. cbn [fst] in Hc.
  set (q := if dc then let '(r, g) := random g4 in ((r <? 0.55)%float, g)
            else (false, g4)).
  assert (Hq : q.1 = dv && dc && q.1).
  { unfold q. rewrite Hc. destruct dv, dc; try done; by destruct (random g4). }
  destruct q as [dp g5]. cbn [fst] in Hq.
  rewrite (randint_ok 0 30) by lia.
  pose proof (randrange_spec 0 30 g5 ltac:(lia)) as Hs.
  destruct (randrange 0 30 g5) as [s g6]. cbn [fst] in Hs.
  cbn [mbind option_bind].
  destruct (session_loop_spec (event_names dv dc dp) 0 (base - seconds s) user
              sid dev pid base late dup g6) as (groups & g' & Hloop & Hlen & Hall).
  { intros j name Hj. rewrite Hc, Hq in Hj. by apply event_names_funnel in Hj. }
  { unfold seconds. simpl. lia. }
  { unfold seconds. simpl. lia. }
  exists sid, dev, pid, groups, g'.
  split; [exact Hloop|]. split; [done|]. split; [done|].
  split; [rewrite Hlen; apply event_names_length|exact Hall].
Qed.

(** X16: the session that [generate_session_events] returns is one to four
    events that run through the stages open, view, cart, purchase in this
    order, none skipped, each written once or twice in a row (an exact
    duplicate).  All share the user, the session id, one of the three
    devices and the ingestion time; the product id, between 1 and 5000, is
    set on every event but [open], and the price on [purchase] alone. *)
Theorem generate_session_events_shape user base late dup g events g' :
  generate_session_events user base late dup g = Some (events, g') →
  ∃ sid dev pid groups,
    events = written groups
    ∧ dev ∈ devices
    ∧ 1 ≤ pid ≤ 5000
    ∧ (1 ≤ length groups ≤ 4)%nat
    ∧ ∀ j e twice, groups !! j = Some (e, twice) →
        event_fields user base sid dev pid j e.
Proof.
  intros Hgen.
  destruct (generate_session_events_spec user base late dup g)
    as (sid & dev & pid & groups & g2 & Hgen' & Hdev & Hpid & Hlen & Hall).
  rewrite Hgen in Hgen'. injection Hgen' as -> ->.
  exists sid, dev, pid, groups.
  split; [reflexivity|]. split; [exact Hdev|]. split; [exact Hpid|].
  split; [exact Hlen|].
  intros j e twice Hj. by apply (Hall j e twice Hj).
Qed.

Lemma elem_of_written e groups :
  e ∈ written groups → ∃ j twice, groups !! j = Some (e, twice).
Proof.
  induction groups as [|[e0 tw] groups IH]; [by intros ?%elem_of_nil|].
  rewrite written_cons, elem_of_app. intros [Hin|Hin].
  - exists 0%nat, tw. destruct tw; set_solver.
  - destruct (IH Hin) as (j & twice & Hj). by exists (S j), twice.
Qed.

(** X17: the time of every generated event is within reach of the ingestion
    time of its session: an event that is not late lies between 28 seconds
    before and 160 seconds after it, a late one between 14487 and 440
    seconds before it; the payload says which, and gives the step of the
    event in its session, from 1 to 4. *)
Theorem generate_session_events_timing user base late dup g events g' :
  generate_session_events user base late dup g = Some (events, g') →
  Forall (λ e, ∃ (is_late : bool) t i,
            payload e = payload_of is_late i
            ∧ 0 ≤ i ≤ 3
            ∧ event_time e = iso t
            ∧ if is_late
              then base - seconds 14487 ≤ t ∧ t ≤ base - seconds 440
              else base - seconds 28 ≤ t ∧ t ≤ base + seconds 160) events.
Proof.
  intros Hgen.
  destruct (generate_session_events_spec user base late dup g)
    as (sid & dev & pid & groups & g2 & Hgen' & _ & _ & Hlen & Hall).
  rewrite Hgen in Hgen'. injection Hgen' as -> ->.
  apply Forall_forall. intros e He.
  apply elem_of_written in He as (j & twice & Hj).
  assert (Hjlt : (j < 4)%nat).
  { apply lookup_lt_Some in Hj. lia. }
  destruct (Hall j e twice Hj) as [_ (is_late & t & Hpay & Htime & Ht)].
  exists is_late, t, (Z.of_nat j). split; [done|]. split; [lia|]. split; [done|].
  unfold seconds in *. destruct is_late; lia.
Qed.

(** ** A file of events *)

Lemma event_fields_plausible users user base sid dev pid i e :
  1 ≤ user ≤ users → dev ∈ devices → 1 ≤ pid ≤ 5000 →
  event_fields user base sid dev pid i e → plausible users e.
Proof.
  intros Huser Hdev Hpid (Hname & Hu & _ & Hd & _ & Hprod & Hprice).
  unfold plausible. rewrite Hu, Hd.
  split; [by eapply list_elem_of_lookup_2|]. split; [done|]. split; [done|].
  assert (Hstage : (i = 0%nat ↔ event_name e = py "open")
                   ∧ (i = 3%nat ↔ event_name e = py "purchase")).
  { destruct i as [|[|[|[|i]]]]; injection Hname as <- || discriminate Hname;
      split; split; intros E; try done; try lia; vm_compute in E;
      discriminate E. }
  destruct Hstage as [H0 H3]. rewrite Hprod. split; [|split].
  - case_decide; split; intros; try done; tauto.
  - intros pid'. case_decide; [done|]. by intros [= <-].
  - rewrite Hprice. tauto.
Qed.

Lemma generate_loop_spec turns rows users late dup all g :
  1 ≤ users →
  Forall (plausible users) all →
  (Z.to_nat rows ≤ length all + turns)%nat →
  ∃ (all' : list Event) (g' : gen),
    generate_loop turns rows users late dup all g = Returns (all', g')
    ∧ rows ≤ Z.of_nat (length all')
    ∧ Forall (plausible users) all'.
Proof.
  revert all g. induction turns as [|turns IH]; intros all g Husers Hall Hfuel.
  - exists all, g. simpl. destruct (Z.ltb_spec (Z.of_nat (length all)) rows); [lia|].
    done.
  - cbn [generate_loop].
    destruct (Z.ltb_spec (Z.of_nat (length all)) rows) as [Hlt|Hge];
      [|by exists all, g].
    rewrite (randint_ok 1 users) by done.
    pose proof (randrange_spec 1 users g Husers) as Huser.
    destruct (randrange 1 users g) as [user g1]. cbn [fst] in Huser.
    destruct (utc_now g1) as [base g2].
    destruct (generate_session_events_spec user base late dup g2)
      as (sid & dev & pid & groups & g3 & -> & Hdev & Hpid & Hlen & Hev).
    apply IH; [done| |].
    + apply Forall_app. split; [done|]. apply Forall_forall. intros e He.
      apply elem_of_written in He as (j & twice & Hj).
      eapply event_fields_plausible; [done..|]. by apply (Hev j e twice Hj).
    + rewrite length_app.
      assert (1 ≤ length (written groups))%nat; [|lia].
      destruct groups as [|[e tw] groups]; [simpl in Hlen; lia|].
      rewrite written_cons, length_app. destruct tw; simpl; lia.
Qed.

(** X18: for at least one user, [generate_events] returns, with exactly
    [rows] events (none when [rows] is negative); in each of them the user
    id is between 1 and [users], the name is a stage of the funnel, the
    device one of the three, the product id absent exactly on [open] and
    otherwise between 1 and 5000, and the price absent exactly off
    [purchase]. *)
Theorem generate_events_returns rows users late dup g :
  1 ≤ users →
  ∃ (events : list Event) (g' : gen),
    generate_events rows users late dup g = Returns (events, g')
    ∧ length events = Z.to_nat rows
    ∧ Forall (plausible users) events.
Proof.
  intros Husers. unfold generate_events.
  destruct (Z.leb_spec 0 rows) as [Hpos|Hneg].
  - destruct (generate_loop_spec (Z.to_nat rows) rows users late dup [] g)
      as (all & g' & -> & Hlen & Hall); [done|done|simpl; lia|].
    exists (slice_to rows all), g'. split; [done|].
    unfold slice_to. destruct (Z.leb_spec 0 rows); [|lia].
    split; [rewrite length_take; lia|by apply Forall_take].
  - replace (Z.to_nat rows) with 0%nat by lia. cbn [generate_loop length].
    destruct (Z.ltb_spec (Z.of_nat 0) rows); [lia|].
    exists (slice_to rows []), g. split; [done|].
    unfold slice_to. destruct (0 <=? rows); by rewrite take_nil.
Qed.

(** X19: without a user to draw, [generate_events] raises as soon as it
    needs one, that is when a positive number of rows is asked for; asked
    for none, or for a negative number, it returns no event and draws
    nothing. *)
Theorem generate_events_edges rows users late dup g :
  (rows ≤ 0 → generate_events rows users late dup g = Returns ([], g))
  ∧ (0 < rows → users < 1 → generate_events rows users late dup g = Raises).
Proof.
  split.
  - intros Hrows. unfold generate_events.
    replace (Z.to_nat rows) with 0%nat by lia. cbn [generate_loop length].
    destruct (Z.ltb_spec (Z.of_nat 0) rows); [lia|].
    unfold slice_to. destruct (0 <=? rows); by rewrite take_nil.
  - intros Hrows Husers. unfold generate_events.
    destruct (Z.to_nat rows) as [|turns] eqn:Hturns; [lia|].
    cbn [generate_loop length]. destruct (Z.ltb_spec (Z.of_nat 0) rows); [|lia].
    unfold randint. by destruct (Z.leb_spec 1 users); [lia|].
Qed.

(** ** From the generator to the loader *)

(** X20: the dict that [Event.to_jsonl] hands to [json.dumps] names every
    placeholder of the loader's INSERT statement: given as it is to the
    loader's normalisation and binding, no parameter is missing, each field
    is bound to the event's value, an absent product id or price as [None],
    and the payload as its JSON text. *)
Theorem generated_record_binds (e : Event) :
  ∃ d,
    as_dict (to_json e) = Some d
    ∧ bind_params (normalize d)
      = inr {| p_event_id := Val (JStr (event_id e));
               p_event_time := Val (JStr (event_time e));
               p_ingestion_time := Val (JStr (ingestion_time e));
               p_event_name := Val (JStr (event_name e));
               p_user_id := Val (JInt (user_id e));
               p_session_id := Val (JStr (session_id e));
               p_product_id := Val (opt_json JInt (product_id e));
               p_price := Val (opt_json JFloat (price e));
               p_device := Val (JStr (device e));
               p_payload := Dumps (JObj (payload e)) |}.
Proof.
  eexists. split; [reflexivity|].
  destruct e as [id et it nm us sid pid pr dv pl]. cbn [to_json as_dict foldl].
  destruct pl as [|m pl]; vm_compute; reflexivity.
Qed.

End GeneratorProperties.

(** Runs of the generator on the reference source. *)
Section GeneratorExamples.
Import Gen GenRef.

Lemma weighted_choice_returns_witness :
  ∃ x, x ∈ py <$> ["bronze"; "silver"; "gold"]
    ∧ weighted_choice [(py "bronze", 6%float); (py "silver", 3%float);
                       (py "gold", 1%float)] (from 2)
      = Some (x, (random (from 2)).2).
Proof.
  apply (weighted_choice_returns
           [(py "bronze", 6%float); (py "silver", 3%float); (py "gold", 1%float)]
           (from 2)); [discriminate|].
  intros c [= <-]. split; vm_compute; reflexivity.
Defined.

Lemma generate_session_events_shape_witness :
  ∃ events g' sid dev pid groups,
    generate_session_events 7 1771418110000000 0.5 0.5 (from 0)
    = Some (events, g')
    ∧ events = written groups
    ∧ dev ∈ devices
    ∧ 1 ≤ pid ≤ 5000
    ∧ (1 ≤ length groups ≤ 4)%nat
    ∧ ∀ j e twice, groups !! j = Some (e, twice) →
        event_fields 7 1771418110000000 sid dev pid j e.
Proof.
  assert (Hrun : match generate_session_events 7 1771418110000000 0.5 0.5 (from 0)
                 with Some _ => True | None => False end) by (vm_compute; exact I).
  destruct (generate_session_events 7 1771418110000000 0.5 0.5 (from 0))
    as [[events g']|] eqn:Hgen; [|contradiction].
  destruct (generate_session_events_shape 7 1771418110000000 0.5 0.5 (from 0)
              events g' Hgen) as (sid & dev & pid & groups & Hshape).
  exists events, g', sid, dev, pid, groups. split; [reflexivity|exact Hshape].
Defined.

Lemma generate_session_events_timing_witness :
  ∃ events g',
    generate_session_events 7 1771418110000000 0.5 0.5 (from 0) = Some (events, g')
    ∧ Forall (λ e, ∃ (is_late : bool) t i,
                payload e = payload_of is_late i
                ∧ 0 ≤ i ≤ 3
                ∧ event_time e = iso t
                ∧ if is_late
                  then 1771418110000000 - seconds 14487 ≤ t
                       ∧ t ≤ 1771418110000000 - seconds 440
                  else 1771418110000000 - seconds 28 ≤ t
                       ∧ t ≤ 1771418110000000 + seconds 160) events.
Proof.
  assert (Hrun : match generate_session_events 7 1771418110000000 0.5 0.5 (from 0)
                 with Some _ => True | None => False end) by (vm_compute; exact I).
  destruct (generate_session_events 7 1771418110000000 0.5 0.5 (from 0))
    as [[events g']|] eqn:Hgen; [|contradiction].
  exists events, g'. split; [reflexivity|].
  exact (generate_session_events_timing 7 1771418110000000 0.5 0.5 (from 0)
           events g' Hgen).
Defined.

Lemma generate_events_returns_witness :
  ∃ (events : list Event) (g' : gen),
    generate_events 12 3 0.5 0.5 (from 0) = Returns (events, g')
    ∧ length events = 12%nat
    ∧ Forall (plausible 3) events.
Proof. apply (generate_events_returns 12 3 0.5 0.5 (from 0)). lia. Defined.

Lemma generate_events_edges_witness :
  generate_events (-4) 0 0.5 0.5 (from 5) = Returns ([], from 5)
  ∧ generate_events 12 0 0.5 0.5 (from 5) = Raises.
Proof.
  destruct (generate_events_edges (-4) 0 0.5 0.5 (from 5)) as [Hnone _].
  destruct (generate_events_edges 12 0 0.5 0.5 (from 5)) as [_ Hraise].
  split; [apply Hnone; lia|apply Hraise; lia].
Defined.

End GeneratorExamples.
